(** * Dynamic-fee transaction data ([x/evm/types/dynamic_fee_tx.go]) and the
      [statedb.TxConfig] record: a shallow embedding and its properties.

    Conventions of the embedding.
    - A [*big.Int] / [*sdk.Int] that may be [nil] is an [option]; [None] is [nil].
    - [uint64] and [uint] fields are [N]; no arithmetic of the source can
      overflow them (the only use is the conversion to [big.Int] in [fee]).
    - A [[]byte] is a [list byte] wherever only its content matters; the
      aliasing model at the end of the definitions ([mem]) is used for
      [Copy], whose contract is about backing storage.
    - A slice that the source tests against [nil] (the access lists) is an
      [option (list _)].
    - [common.Address] and [common.Hash] are the fixed-size arrays
      [[20]byte] and [[32]byte].
    - What the file calls in other packages and cannot be read off it (the
      hex codec of addresses, the access-list conversions, the address
      validator) is a parameter of the section that embeds the file; the
      laws a property needs of them are its hypotheses. *)

From Stdlib Require Import ZArith NArith Lia List.
From Stdlib Require Import Strings.Ascii Strings.String Strings.Byte DecimalString.
From stdpp Require Import base option list vector gmap strings.

Local Open Scope Z_scope.

(** ** Go's [math/big] *)
Module big.

Definition byte_of_N (n : N) : byte := default "000"%byte (Byte.of_N n).

(** Base-256 digits of [n], least significant first. [fuel] bounds the
    number of digits; the number of bits of [n] is always enough
    ([le_digits_value] below). *)
Fixpoint le_digits (fuel : nat) (n : N) : list byte :=
  match fuel with
  | O => []
  | S fuel' =>
      if (n =? 0)%N then []
      else byte_of_N (n mod 256)%N :: le_digits fuel' (n / 256)%N
  end.

(** [x.Bytes()]: the absolute value of [x] as a big-endian byte slice
    without leading zero bytes (empty for zero). *)
Definition Bytes (x : Z) : list byte :=
  rev (le_digits (N.to_nat (N.size (Z.abs_N x))) (Z.abs_N x)).

Definition le_value (digits : list byte) : N :=
  fold_right (fun b acc => (Byte.to_N b + 256 * acc)%N) 0%N digits.

Definition be_value (buf : list byte) : N :=
  fold_left (fun acc b => (acc * 256 + Byte.to_N b)%N) buf 0%N.

(** [new(big.Int).SetBytes(buf)]: [buf] read as a big-endian unsigned
    integer. *)
Definition SetBytes (buf : list byte) : Z := Z.of_N (be_value buf).

(** [x.Sign()]: -1, 0 or +1. *)
Definition Sign (x : Z) : Z := Z.sgn x.

(** [x.String()], which is what the verb [%s] prints: decimal digits with
    a leading minus sign for negative numbers. *)
Definition String (x : Z) : string := NilZero.string_of_int (Z.to_int x).

Definition SetUint64 (x : N) : Z := Z.of_N x.

End big.

(** ** The SDK's [Int], a wrapper of a [big.Int] *)
Module sdk.

Record Int := { i : Z }.

(** [sdk.NewIntFromBigInt] on a non-nil argument. The conversion is
    lossless; the SDK's bound on the bit length of an [Int] is not part of
    this development. *)
Definition NewIntFromBigInt (x : Z) : Int := {| i := x |}.

Definition BigInt (x : Int) : Z := i x.

End sdk.

(** ** Errors: registered root errors and [sdkerrors.Wrap] *)
Inductive error : Type :=
| ErrInvalidGasPrice
| ErrInvalidAmount
| ErrInvalidChainID
| ErrInvalidAddress
| Wrap (err : error) (description : string).

(** [sdkerrors.Wrapf(err, format, x)] for the one-verb formats of this file:
    the description is [format] with its trailing [%s] replaced by [x]. *)
Definition Wrapf (err : error) (prefix : string) (x : Z) : error :=
  Wrap err (prefix +:+ big.String x).

(** Sequencing of checks that return an error or [nil]: the first error
    returned ends the function. *)
Definition or_else (r : option error) (rest : option error) : option error :=
  match r with
  | Some err => Some err
  | None => rest
  end.
Notation "r 'orelse' rest" := (or_else r rest)
  (at level 75, right associativity, only parsing).

(** ** go-ethereum's [common] *)
Module common.

Definition AddressLength : nat := 20.
Definition HashLength : nat := 32.

Definition Address := vec byte AddressLength.
Definition Hash := vec byte HashLength.

(** [common.Hash{}], the zero value of the array. *)
Definition zero_Hash : Hash := vreplicate HashLength "000"%byte.

End common.

(** ** go-ethereum's [core/types] *)
Module ethtypes.

Definition DynamicFeeTxType : N := 2.

Record AccessTuple := {
  Address : common.Address;
  StorageKeys : list common.Hash
}.

(** A slice of tuples; [None] is the nil slice. *)
Definition AccessList := option (list AccessTuple).

(** The [TxData] struct of a fee-market transaction. *)
Module DynamicFeeTx.
Record t := {
  ChainID : option Z;
  Nonce : N;
  GasTipCap : option Z;
  GasFeeCap : option Z;
  Gas : N;
  To : option common.Address;
  Value : option Z;
  Data : list byte;
  AccessList : ethtypes.AccessList;
  V : option Z;
  R : option Z;
  S : option Z
}.

(** The deep copy [NewTx] takes of its argument: a nil integer becomes
    zero and a nil access list an empty one. *)
Definition copy (tx : t) : t :=
  {| ChainID := Some (default 0 (ChainID tx));
     Nonce := Nonce tx;
     GasTipCap := Some (default 0 (GasTipCap tx));
     GasFeeCap := Some (default 0 (GasFeeCap tx));
     Gas := Gas tx;
     To := To tx;
     Value := Some (default 0 (Value tx));
     Data := Data tx;
     AccessList := Some (default [] (AccessList tx));
     V := Some (default 0 (V tx));
     R := Some (default 0 (R tx));
     S := Some (default 0 (S tx)) |}.
End DynamicFeeTx.

(** The external transaction object, given by what its accessors return.
    [newDynamicFeeTx] tests five of them against [nil]. *)
Module Transaction.
Record t := {
  Nonce : N;
  Data : list byte;
  Gas : N;
  To : option common.Address;
  Value : option Z;
  GasFeeCap : option Z;
  GasTipCap : option Z;
  AccessList : ethtypes.AccessList;
  ChainId : option Z;
  RawSignatureValues : option Z * option Z * option Z
}.
End Transaction.

(** The transaction object whose accessors read the fields of [inner], as
    decoding builds it (go-ethereum's [setDecoded]). *)
Definition setDecoded (inner : DynamicFeeTx.t) : Transaction.t :=
  {| Transaction.Nonce := DynamicFeeTx.Nonce inner;
     Transaction.Data := DynamicFeeTx.Data inner;
     Transaction.Gas := DynamicFeeTx.Gas inner;
     Transaction.To := DynamicFeeTx.To inner;
     Transaction.Value := DynamicFeeTx.Value inner;
     Transaction.GasFeeCap := DynamicFeeTx.GasFeeCap inner;
     Transaction.GasTipCap := DynamicFeeTx.GasTipCap inner;
     Transaction.AccessList := DynamicFeeTx.AccessList inner;
     Transaction.ChainId := DynamicFeeTx.ChainID inner;
     Transaction.RawSignatureValues :=
       (DynamicFeeTx.V inner, DynamicFeeTx.R inner, DynamicFeeTx.S inner) |}.

(** [ethtypes.NewTx]: the transaction object over a deep copy of [inner]. *)
Definition NewTx (inner : DynamicFeeTx.t) : Transaction.t :=
  setDecoded (DynamicFeeTx.copy inner).

End ethtypes.

(** ** The ledger-side types of package [types] *)

Record AccessTuple := {
  Address : string;
  StorageKeys : list string
}.

(** A slice of tuples; [None] is the nil slice. *)
Definition AccessList := option (list AccessTuple).

(** [DynamicFeeTx], over the representation [bytes] of its [[]byte]
    fields: [list byte] for their content, [slice] for references into a
    heap. *)
Record DynamicFeeTxOf (bytes : Type) := {
  ChainID : option sdk.Int;
  Nonce : N;
  GasTipCap : option sdk.Int;
  GasFeeCap : option sdk.Int;
  GasLimit : N;
  To : string;
  Amount : option sdk.Int;
  Data : bytes;
  Accesses : AccessList;
  V : bytes;
  R : bytes;
  S : bytes
}.
Arguments ChainID {bytes} _.
Arguments Nonce {bytes} _.
Arguments GasTipCap {bytes} _.
Arguments GasFeeCap {bytes} _.
Arguments GasLimit {bytes} _.
Arguments To {bytes} _.
Arguments Amount {bytes} _.
Arguments Data {bytes} _.
Arguments Accesses {bytes} _.
Arguments V {bytes} _.
Arguments R {bytes} _.
Arguments S {bytes} _.

Abbreviation DynamicFeeTx := (DynamicFeeTxOf (list byte)).

(** Field updates, for the assignments [txData.F = x] of the source. *)
Section updates.
Context {bytes : Type}.
Implicit Type tx : DynamicFeeTxOf bytes.

Definition set_ChainID tx (x : option sdk.Int) : DynamicFeeTxOf bytes :=
  {| ChainID := x; Nonce := Nonce tx; GasTipCap := GasTipCap tx;
     GasFeeCap := GasFeeCap tx; GasLimit := GasLimit tx; To := To tx;
     Amount := Amount tx; Data := Data tx; Accesses := Accesses tx;
     V := V tx; R := R tx; S := S tx |}.

Definition set_GasTipCap tx (x : option sdk.Int) : DynamicFeeTxOf bytes :=
  {| ChainID := ChainID tx; Nonce := Nonce tx; GasTipCap := x;
     GasFeeCap := GasFeeCap tx; GasLimit := GasLimit tx; To := To tx;
     Amount := Amount tx; Data := Data tx; Accesses := Accesses tx;
     V := V tx; R := R tx; S := S tx |}.

Definition set_GasFeeCap tx (x : option sdk.Int) : DynamicFeeTxOf bytes :=
  {| ChainID := ChainID tx; Nonce := Nonce tx; GasTipCap := GasTipCap tx;
     GasFeeCap := x; GasLimit := GasLimit tx; To := To tx;
     Amount := Amount tx; Data := Data tx; Accesses := Accesses tx;
     V := V tx; R := R tx; S := S tx |}.

Definition set_To tx (x : string) : DynamicFeeTxOf bytes :=
  {| ChainID := ChainID tx; Nonce := Nonce tx; GasTipCap := GasTipCap tx;
     GasFeeCap := GasFeeCap tx; GasLimit := GasLimit tx; To := x;
     Amount := Amount tx; Data := Data tx; Accesses := Accesses tx;
     V := V tx; R := R tx; S := S tx |}.

Definition set_Amount tx (x : option sdk.Int) : DynamicFeeTxOf bytes :=
  {| ChainID := ChainID tx; Nonce := Nonce tx; GasTipCap := GasTipCap tx;
     GasFeeCap := GasFeeCap tx; GasLimit := GasLimit tx; To := To tx;
     Amount := x; Data := Data tx; Accesses := Accesses tx;
     V := V tx; R := R tx; S := S tx |}.

Definition set_Accesses tx (x : AccessList) : DynamicFeeTxOf bytes :=
  {| ChainID := ChainID tx; Nonce := Nonce tx; GasTipCap := GasTipCap tx;
     GasFeeCap := GasFeeCap tx; GasLimit := GasLimit tx; To := To tx;
     Amount := Amount tx; Data := Data tx; Accesses := x;
     V := V tx; R := R tx; S := S tx |}.

Definition set_V tx (x : bytes) : DynamicFeeTxOf bytes :=
  {| ChainID := ChainID tx; Nonce := Nonce tx; GasTipCap := GasTipCap tx;
     GasFeeCap := GasFeeCap tx; GasLimit := GasLimit tx; To := To tx;
     Amount := Amount tx; Data := Data tx; Accesses := Accesses tx;
     V := x; R := R tx; S := S tx |}.

Definition set_R tx (x : bytes) : DynamicFeeTxOf bytes :=
  {| ChainID := ChainID tx; Nonce := Nonce tx; GasTipCap := GasTipCap tx;
     GasFeeCap := GasFeeCap tx; GasLimit := GasLimit tx; To := To tx;
     Amount := Amount tx; Data := Data tx; Accesses := Accesses tx;
     V := V tx; R := x; S := S tx |}.

Definition set_S tx (x : bytes) : DynamicFeeTxOf bytes :=
  {| ChainID := ChainID tx; Nonce := Nonce tx; GasTipCap := GasTipCap tx;
     GasFeeCap := GasFeeCap tx; GasLimit := GasLimit tx; To := To tx;
     Amount := Amount tx; Data := Data tx; Accesses := Accesses tx;
     V := V tx; R := R tx; S := x |}.
End updates.

(** ** Helpers of package [types] that live in [tx_data.go] *)

(** Modelled from the spec: [rawSignatureValues] is not among the sources.
    "Extraction parses the stored bytes back into arbitrary-precision
    integers (nil if the byte sequence is empty)". *)
Definition rawSignatureValues (vBz rBz sBz : list byte)
  : option Z * option Z * option Z :=
  let parse (bz : list byte) :=
    match bz with
    | [] => None
    | _ => Some (big.SetBytes bz)
    end in
  (parse vBz, parse rBz, parse sBz).

(** Modelled from the spec: [fee] is not among the sources.
    "[gasPrice × gasLimit], arbitrary-precision multiplication, no overflow".
    The spec gives no result for an absent gas price; there is none here
    either. *)
Definition fee (gasPrice : option Z) (gas : N) : option Z :=
  match gasPrice with
  | Some p => Some (p * big.SetUint64 gas)
  | None => None
  end.

(** Modelled from the spec: [cost] is not among the sources.
    "[Fee() + value] (value treated as 0 if absent)". *)
Definition cost (fee : option Z) (value : option Z) : option Z :=
  match fee with
  | Some f => Some (f + default 0 value)
  | None => None
  end.

(** ** A hex codec for addresses and hashes

    The transaction code is verified against any codec
    ([Hex], [HexToAddress], ...) taken as a parameter below. This module
    gives one, shaped like go-ethereum's: lenient decoding that stops at the
    first non-hex character, right-aligned into the fixed-size array, and an
    encoding whose letter case is chosen by a checksum function. *)
Module hexcodec.

Definition nibble_char (n : N) : ascii :=
  ascii_of_N (if (n <? 10)%N then 48 + n else 87 + n)%N.

(** [c - 32] for a letter, as the checksum loop does. *)
Definition upper (c : ascii) : ascii :=
  if (57 <? N_of_ascii c)%N then ascii_of_N (N_of_ascii c - 32) else c.

Definition nibble_of_char (c : ascii) : option N :=
  let n := N_of_ascii c in
  if ((48 <=? n) && (n <=? 57))%N then Some (n - 48)%N
  else if ((97 <=? n) && (n <=? 102))%N then Some (n - 87)%N
  else if ((65 <=? n) && (n <=? 70))%N then Some (n - 55)%N
  else None.

(** Lower-case hex digits of a byte sequence. *)
Fixpoint encode (bs : list byte) : string :=
  match bs with
  | [] => EmptyString
  | b :: bs' =>
      String (nibble_char (Byte.to_N b / 16))
        (String (nibble_char (Byte.to_N b mod 16)) (encode bs'))
  end.

(** [Hex2Bytes]: decodes pairs of hex digits and drops the error, so the
    result is what was decoded before the first bad character. *)
Fixpoint Hex2Bytes (s : string) : list byte :=
  match s with
  | String a (String b s') =>
      match nibble_of_char a, nibble_of_char b with
      | Some x, Some y => big.byte_of_N (16 * x + y) :: Hex2Bytes s'
      | _, _ => []
      end
  | _ => []
  end.

Definition has0xPrefix (s : string) : bool :=
  match s with
  | String "0" (String c _) => Ascii.eqb c "x" || Ascii.eqb c "X"
  | _ => false
  end.

Definition FromHex (s : string) : list byte :=
  let s := if has0xPrefix s then String.substring 2 (String.length s - 2) s
           else s in
  let s := if Nat.odd (String.length s) then String "0" s else s in
  Hex2Bytes s.

Fixpoint vec_of_list (n : nat) (l : list byte) : vec byte n :=
  match n with
  | O => [#]
  | Datatypes.S n' => hd "000"%byte l ::: vec_of_list n' (tl l)
  end.

(** [SetBytes] of an array of [n] bytes: [b] cropped from the left and
    copied to the right end of the zeroed array. *)
Definition SetBytes (n : nat) (b : list byte) : vec byte n :=
  let b := drop (length b - n) b in
  vec_of_list n (replicate (n - length b) "000"%byte ++ b).

Definition HexToAddress (s : string) : common.Address :=
  SetBytes common.AddressLength (FromHex s).

Definition HexToHash (s : string) : common.Hash :=
  SetBytes common.HashLength (FromHex s).

(** Upper-cases the letters of [s] selected by the nibbles of [hash]
    (those greater than 7), two characters per hash byte. *)
Fixpoint checksum_case (hash : list byte) (s : string) : string :=
  match s with
  | String a (String b s') =>
      let h := Byte.to_N (hd "000"%byte hash) in
      String (if (7 <? h / 16)%N then upper a else a)
        (String (if (7 <? h mod 16)%N then upper b else b)
           (checksum_case (tl hash) s'))
  | _ => s
  end.

(** [Address.Hex]: ["0x"] and the checksummed digits, for the hash
    function [keccak] applied to the lower-case digits. *)
Definition Hex (keccak : list byte -> list byte) (a : common.Address)
  : string :=
  let digits := encode (vec_to_list a) in
  "0x" +:+ checksum_case (keccak (map byte_of_ascii (list_ascii_of_string digits))) digits.

(** [Hash.Hex]: ["0x"] and the lower-case digits. *)
Definition HashHex (h : common.Hash) : string :=
  "0x" +:+ encode (vec_to_list h).

(** [common.IsHexAddress]: forty hex digits after an optional prefix. *)
Definition IsHexAddress (s : string) : bool :=
  let s := if has0xPrefix s then String.substring 2 (String.length s - 2) s
           else s in
  Nat.eqb (String.length s) (2 * common.AddressLength)
  && forallb (fun c => bool_decide (is_Some (nibble_of_char c)))
       (list_ascii_of_string s).

(** A validator in the shape of [types.ValidateAddress]. *)
Definition ValidateAddress (address : string) : option error :=
  if IsHexAddress address then None
  else Some (Wrap ErrInvalidAddress
               ("address '" +:+ address +:+ "' is not a valid ethereum hex address")).

(** Element-wise conversions of access lists through the codec. *)
Section access_lists.
Variable keccak : list byte -> list byte.

Definition NewAccessTuple (t : ethtypes.AccessTuple) : AccessTuple :=
  {| Address := Hex keccak (ethtypes.Address t);
     StorageKeys := map HashHex (ethtypes.StorageKeys t) |}.

Definition ToEthAccessTuple (t : AccessTuple) : ethtypes.AccessTuple :=
  {| ethtypes.Address := HexToAddress (Address t);
     ethtypes.StorageKeys := map HexToHash (StorageKeys t) |}.

Definition NewAccessList (al : ethtypes.AccessList) : AccessList :=
  Some (map NewAccessTuple (default [] al)).

Definition ToEthAccessList (al : AccessList) : ethtypes.AccessList :=
  match al with
  | Some l => Some (map ToEthAccessTuple l)
  | None => None
  end.
End access_lists.

End hexcodec.

(** ** [dynamic_fee_tx.go] *)
Section dynamic_fee_tx.

(** What the file consumes from other packages: the address codec of
    [common], the access-list conversions of [access_list.go] and the
    address validator [types.ValidateAddress]. [NewAccessList] takes the
    list its pointer argument points to; [ToEthAccessList] gives the list
    its result points to. *)
Variable Hex : common.Address -> string.
Variable HexToAddress : string -> common.Address.
Variable NewAccessList : ethtypes.AccessList -> AccessList.
Variable ToEthAccessList : AccessList -> ethtypes.AccessList.
Variable ValidateAddress : string -> option error.

Implicit Type tx : DynamicFeeTx.

(** [common.CopyBytes] as a function on content. *)
Definition CopyBytes (b : list byte) : list byte := b.

(** [SetSignatureValues] sets the signature values to the transaction. *)
Definition SetSignatureValues tx (chainID v r s : option Z) : DynamicFeeTx :=
  let tx := match v with
            | Some v => set_V tx (big.Bytes v)
            | None => tx
            end in
  let tx := match r with
            | Some r => set_R tx (big.Bytes r)
            | None => tx
            end in
  let tx := match s with
            | Some s => set_S tx (big.Bytes s)
            | None => tx
            end in
  match chainID with
  | Some chainID =>
      let chainIDInt := sdk.NewIntFromBigInt chainID in
      set_ChainID tx (Some chainIDInt)
  | None => tx
  end.

Definition newDynamicFeeTx (tx : ethtypes.Transaction.t) : DynamicFeeTx :=
  let txData : DynamicFeeTx :=
    {| ChainID := None;
       Nonce := ethtypes.Transaction.Nonce tx;
       GasTipCap := None;
       GasFeeCap := None;
       GasLimit := ethtypes.Transaction.Gas tx;
       To := "";
       Amount := None;
       Data := ethtypes.Transaction.Data tx;
       Accesses := None;
       V := []; R := []; S := [] |} in
  let '(v, r, s) := ethtypes.Transaction.RawSignatureValues tx in
  let txData := match ethtypes.Transaction.To tx with
                | Some to => set_To txData (Hex to)
                | None => txData
                end in
  let txData := match ethtypes.Transaction.Value tx with
                | Some value =>
                    let amountInt := sdk.NewIntFromBigInt value in
                    set_Amount txData (Some amountInt)
                | None => txData
                end in
  let txData := match ethtypes.Transaction.GasFeeCap tx with
                | Some gasFeeCap =>
                    let gasFeeCapInt := sdk.NewIntFromBigInt gasFeeCap in
                    set_GasFeeCap txData (Some gasFeeCapInt)
                | None => txData
                end in
  let txData := match ethtypes.Transaction.GasTipCap tx with
                | Some gasTipCap =>
                    let gasTipCapInt := sdk.NewIntFromBigInt gasTipCap in
                    set_GasTipCap txData (Some gasTipCapInt)
                | None => txData
                end in
  let txData := match ethtypes.Transaction.AccessList tx with
                | Some al => set_Accesses txData (NewAccessList (Some al))
                | None => txData
                end in
  SetSignatureValues txData (ethtypes.Transaction.ChainId tx) v r s.

(** [TxType] returns the tx type. *)
Definition TxType tx : N := ethtypes.DynamicFeeTxType.

(** [GetChainID] returns the chain id field. *)
Definition GetChainID tx : option Z :=
  match ChainID tx with
  | None => None
  | Some chainID => Some (sdk.BigInt chainID)
  end.

(** [GetAccessList] returns the AccessList field. *)
Definition GetAccessList tx : ethtypes.AccessList :=
  match Accesses tx with
  | None => None
  | Some _ => ToEthAccessList (Accesses tx)
  end.

(** [GetData] returns a copy of the input data bytes. *)
Definition GetData tx : list byte := CopyBytes (Data tx).

(** [GetGas] returns the gas limit. *)
Definition GetGas tx : N := GasLimit tx.

(** [GetGasFeeCap] returns the gas fee cap field. *)
Definition GetGasFeeCap tx : option Z :=
  match GasFeeCap tx with
  | None => None
  | Some gasFeeCap => Some (sdk.BigInt gasFeeCap)
  end.

(** [GetGasPrice] returns the gas fee cap field. *)
Definition GetGasPrice tx : option Z := GetGasFeeCap tx.

(** [GetGasTipCap] returns the gas tip cap field. *)
Definition GetGasTipCap tx : option Z :=
  match GasTipCap tx with
  | None => None
  | Some gasTipCap => Some (sdk.BigInt gasTipCap)
  end.

(** [GetValue] returns the tx amount. *)
Definition GetValue tx : option Z :=
  match Amount tx with
  | None => None
  | Some amount => Some (sdk.BigInt amount)
  end.

(** [GetNonce] returns the account sequence for the transaction. *)
Definition GetNonce tx : N := Nonce tx.

(** [GetTo] returns the pointer to the recipient address. *)
Definition GetTo tx : option common.Address :=
  if String.eqb (To tx) "" then None
  else
    let to := HexToAddress (To tx) in
    Some to.

(** [GetRawSignatureValues] returns the V, R, S signature values. *)
Definition GetRawSignatureValues tx : option Z * option Z * option Z :=
  rawSignatureValues (V tx) (R tx) (S tx).

(** [AsEthereumData] returns the go-ethereum transaction data. *)
Definition AsEthereumData tx : ethtypes.DynamicFeeTx.t :=
  let '(v, r, s) := GetRawSignatureValues tx in
  {| ethtypes.DynamicFeeTx.ChainID := GetChainID tx;
     ethtypes.DynamicFeeTx.Nonce := GetNonce tx;
     ethtypes.DynamicFeeTx.GasTipCap := GetGasTipCap tx;
     ethtypes.DynamicFeeTx.GasFeeCap := GetGasFeeCap tx;
     ethtypes.DynamicFeeTx.Gas := GetGas tx;
     ethtypes.DynamicFeeTx.To := GetTo tx;
     ethtypes.DynamicFeeTx.Value := GetValue tx;
     ethtypes.DynamicFeeTx.Data := GetData tx;
     ethtypes.DynamicFeeTx.AccessList := GetAccessList tx;
     ethtypes.DynamicFeeTx.V := v;
     ethtypes.DynamicFeeTx.R := r;
     ethtypes.DynamicFeeTx.S := s |}.

(** [Validate] performs a stateless validation of the tx fields. The
    result is the error returned, [None] for [nil]. *)
Definition Validate tx : option error :=
  match GetGasPrice tx with
  | None => Some (Wrap ErrInvalidGasPrice "cannot be nil")
  | Some gasPrice =>
      if big.Sign gasPrice =? -1 then
        Some (Wrapf ErrInvalidGasPrice "gas price cannot be negative " gasPrice)
      else
        let amount := GetValue tx in
        match amount with
        | Some a =>
            if big.Sign a =? -1 then
              Some (Wrapf ErrInvalidAmount "amount cannot be negative " a)
            else None
        | None => None
        end orelse
        (if negb (String.eqb (To tx) "") then
           match ValidateAddress (To tx) with
           | Some err => Some (Wrap err "invalid to address")
           | None => None
           end
         else None) orelse
        match GetChainID tx with
        | None =>
            Some (Wrap ErrInvalidChainID
                    "chain ID must be present on AccessList txs")
        | Some _ => None
        end orelse
        None
  end.

(** [Fee] returns gasprice * gaslimit. *)
Definition Fee tx : option Z := fee (GetGasPrice tx) (GetGas tx).

(** [Cost] returns amount + gasprice * gaslimit. *)
Definition Cost tx : option Z := cost (Fee tx) (GetValue tx).

End dynamic_fee_tx.

(** The bytes [SetSignatureValues] leaves in a byte field that was empty,
    for a scalar that may be nil. *)
Definition stored_bytes (x : option Z) : list byte :=
  match x with
  | Some x => big.Bytes x
  | None => []
  end.

(** ** What the checks of [Validate] ask of a transaction *)
Section checks.
Variable ValidateAddress : string -> option error.
Implicit Type tx : DynamicFeeTx.

(** Checks 1 and 2: the gas price is present and not negative. *)
Definition gas_price_valid tx : Prop :=
  match GetGasPrice tx with
  | Some gasPrice => 0 <= gasPrice
  | None => False
  end.

(** Check 3: the amount, if present, is not negative. *)
Definition amount_valid tx : Prop :=
  match GetValue tx with
  | Some amount => 0 <= amount
  | None => True
  end.

(** Check 4: the recipient is empty or passes the address validator. *)
Definition to_valid tx : Prop :=
  To tx = "" \/ ValidateAddress (To tx) = None.

(** Check 5: the chain id is present. *)
Definition chain_id_present tx : Prop := GetChainID tx <> None.
End checks.

(** ** [statedb.TxConfig] *)
Module statedb.

(** [TxConfig] encapsulates the read-only information of the current tx. *)
Record TxConfig := {
  BlockHash : common.Hash;
  TxHash : common.Hash;
  TxIndex : N;
  LogIndex : N
}.

Definition NewTxConfig (bhash thash : common.Hash) (txIndex logIndex : N)
  : TxConfig :=
  {| BlockHash := bhash;
     TxHash := thash;
     TxIndex := txIndex;
     LogIndex := logIndex |}.

(** [NewEmptyTxConfig] constructs an empty [TxConfig]. *)
Definition NewEmptyTxConfig (bhash : common.Hash) : TxConfig :=
  {| BlockHash := bhash;
     TxHash := common.zero_Hash;
     TxIndex := 0;
     LogIndex := 0 |}.

End statedb.

(** ** Byte slices as references: the model for [Copy]

    A heap maps the address of a backing array to its bytes. A non-nil
    slice is a window of an array; [None] is the nil slice. *)
Module mem.

Definition loc := positive.

Record window := { ptr : loc; off : nat; len : nat }.

Definition slice := option window.

Abbreviation heap := (gmap loc (list byte)).

(** The bytes a slice denotes in a heap. *)
Definition content (h : heap) (b : slice) : list byte :=
  match b with
  | None => []
  | Some w => take (len w) (drop (off w) (default [] (h !! ptr w)))
  end.

(** [b[i] = x]: fails (the index-out-of-range panic) unless [i < len(b)]. *)
Definition store (b : slice) (i : nat) (x : byte) (h : heap) : option heap :=
  match b with
  | None => None
  | Some w =>
      if decide (i < len w)%nat
      then Some (alter (fun arr => <[(off w + i)%nat := x]> arr) (ptr w) h)
      else None
  end.

(** [common.CopyBytes]: nil for nil; otherwise a new array of [len(b)]
    bytes, filled from [b], and the slice of the whole of it. *)
Definition CopyBytes (b : slice) (h : heap) : slice * heap :=
  match b with
  | None => (None, h)
  | Some w =>
      let l := fresh (dom h) in
      (Some {| ptr := l; off := 0; len := len w |},
       <[l := content h b]> h)
  end.

(** [Copy] returns an instance with the same field values. The struct
    literal is evaluated field by field, in the order of the source. *)
Definition Copy (tx : DynamicFeeTxOf slice) (h : heap)
  : DynamicFeeTxOf slice * heap :=
  let '(data, h) := CopyBytes (Data tx) h in
  let '(v, h) := CopyBytes (V tx) h in
  let '(r, h) := CopyBytes (R tx) h in
  let '(s, h) := CopyBytes (S tx) h in
  ({| ChainID := ChainID tx;
      Nonce := Nonce tx;
      GasTipCap := GasTipCap tx;
      GasFeeCap := GasFeeCap tx;
      GasLimit := GasLimit tx;
      To := To tx;
      Amount := Amount tx;
      Data := data;
      Accesses := Accesses tx;
      V := v;
      R := r;
      S := s |}, h).

(** The transaction a heap-resident transaction denotes. *)
Definition load (h : heap) (tx : DynamicFeeTxOf slice) : DynamicFeeTx :=
  {| ChainID := ChainID tx;
     Nonce := Nonce tx;
     GasTipCap := GasTipCap tx;
     GasFeeCap := GasFeeCap tx;
     GasLimit := GasLimit tx;
     To := To tx;
     Amount := Amount tx;
     Data := content h (Data tx);
     Accesses := Accesses tx;
     V := content h (V tx);
     R := content h (R tx);
     S := content h (S tx) |}.

(** The four byte-sequence fields. *)
Inductive bytes_field := FData | FV | FR | FS.

Definition field {bytes} (f : bytes_field) (tx : DynamicFeeTxOf bytes) : bytes :=
  match f with
  | FData => Data tx
  | FV => V tx
  | FR => R tx
  | FS => S tx
  end.

(** The slice is nil or points into one of the arrays [D]. *)
Definition points_into (D : gset loc) (b : slice) : Prop :=
  forall w, b = Some w -> ptr w ∈ D.

(** No slice of the transaction dangles: each points into an allocated
    array. *)
Definition allocated (h : heap) (tx : DynamicFeeTxOf slice) : Prop :=
  forall f w, field f tx = Some w -> ptr w ∈ dom h.

End mem.

(** ** Sample data *)
Module sample.

(** A stand-in for the checksum hash: every nibble selects upper case. *)
Definition keccak (_ : list byte) : list byte := replicate 32 "255"%byte.

Definition address : common.Address :=
  hexcodec.HexToAddress "0x52908400098527886e0f7030069857d2e4169ee7".

Definition storage_key : common.Hash := hexcodec.HexToHash "0x01".

(** A signed transfer with an access list; the parity [V] is zero. *)
Definition transfer : ethtypes.Transaction.t :=
  {| ethtypes.Transaction.Nonce := 7;
     ethtypes.Transaction.Data := ["222"; "173"; "190"; "239"]%byte;
     ethtypes.Transaction.Gas := 21000;
     ethtypes.Transaction.To := Some address;
     ethtypes.Transaction.Value := Some 1000;
     ethtypes.Transaction.GasFeeCap := Some 100;
     ethtypes.Transaction.GasTipCap := Some 2;
     ethtypes.Transaction.AccessList :=
       Some [ {| ethtypes.Address := address;
                 ethtypes.StorageKeys := [storage_key] |} ];
     ethtypes.Transaction.ChainId := Some 9000;
     ethtypes.Transaction.RawSignatureValues :=
       (Some 0, Some 81985529216486895, Some 4660) |}.

(** A contract creation whose optional accessors all return nil. *)
Definition creation : ethtypes.Transaction.t :=
  {| ethtypes.Transaction.Nonce := 0;
     ethtypes.Transaction.Data := ["096"; "128"]%byte;
     ethtypes.Transaction.Gas := 53000;
     ethtypes.Transaction.To := None;
     ethtypes.Transaction.Value := None;
     ethtypes.Transaction.GasFeeCap := None;
     ethtypes.Transaction.GasTipCap := None;
     ethtypes.Transaction.AccessList := None;
     ethtypes.Transaction.ChainId := None;
     ethtypes.Transaction.RawSignatureValues := (None, None, None) |}.

(** The transaction of the fee example: fee cap 100, gas limit 21000,
    amount 1000; it passes [Validate]. *)
Definition tx : DynamicFeeTx :=
  {| ChainID := Some (sdk.NewIntFromBigInt 9000);
     Nonce := 7;
     GasTipCap := Some (sdk.NewIntFromBigInt 2);
     GasFeeCap := Some (sdk.NewIntFromBigInt 100);
     GasLimit := 21000;
     To := "0x52908400098527886E0F7030069857D2E4169EE7";
     Amount := Some (sdk.NewIntFromBigInt 1000);
     Data := [];
     Accesses := None;
     V := []; R := []; S := [] |}.

(** [tx] with a parity byte padded by a leading zero, which no
    [SetSignatureValues] writes. *)
Definition padded : DynamicFeeTx := set_V tx ["000"; "001"]%byte.

(** A heap with two arrays and a transaction over it: the payload is one
    array, [V] and [S] are windows of the other, [R] is nil. *)
Definition heap : gmap mem.loc (list byte) :=
  <[1%positive := ["001"; "002"; "003"]%byte]>
    (<[2%positive := ["010"; "011"; "012"; "013"]%byte]> ∅).

Definition heap_tx : DynamicFeeTxOf mem.slice :=
  {| ChainID := Some (sdk.NewIntFromBigInt 9000);
     Nonce := 7;
     GasTipCap := None;
     GasFeeCap := Some (sdk.NewIntFromBigInt 100);
     GasLimit := 21000;
     To := "";
     Amount := None;
     Data := Some {| mem.ptr := 1%positive; mem.off := 0; mem.len := 3 |};
     Accesses := None;
     V := Some {| mem.ptr := 2%positive; mem.off := 0; mem.len := 1 |};
     R := None;
     S := Some {| mem.ptr := 2%positive; mem.off := 1; mem.len := 3 |} |}.

End sample.

(** ** Notions used to state further properties *)

(** The argument that takes effect when a setter that skips nil arguments
    is called with [old] and then with [new]. *)
Definition later_arg (new old : option Z) : option Z :=
  match new with
  | Some _ => new
  | None => old
  end.

(** The scalar [rawSignatureValues] extracts from a byte field. *)
Definition extracted (bz : list byte) : option Z :=
  match bz with
  | [] => None
  | _ => Some (big.SetBytes bz)
  end.

(** What extraction gives for a field after [SetSignatureValues] was
    called with the argument [x] on a field holding [old]. *)
Definition reextracted (x : option Z) (old : list byte) : option Z :=
  match x with
  | Some x => if x =? 0 then None else Some (Z.abs x)
  | None => extracted old
  end.

(** A signature scalar that is nil or positive. *)
Definition nil_or_positive (x : option Z) : Prop :=
  match x with
  | Some x => 0 < x
  | None => True
  end.


(** ** More of the file over byte slices as references *)
Module mem_ops.
Import mem.

#[global] Instance bytes_field_eq_dec : EqDecision bytes_field.
Proof. solve_decision. Defined.

(** [GetData] returns a copy of the input data bytes. *)
Definition GetData (tx : DynamicFeeTxOf slice) (h : heap) : slice * heap :=
  CopyBytes (Data tx) h.

(** [x.Bytes()] as an allocation: a new array holding the bytes of [x] and
    the slice of it, which is not nil even when it is empty. *)
Definition Bytes (x : Z) (h : heap) : slice * heap :=
  let l := fresh (dom h) in
  (Some {| ptr := l; off := 0; len := length (big.Bytes x) |},
   <[l := big.Bytes x]> h).

(** [SetSignatureValues] sets the signature values to the transaction. *)
Definition SetSignatureValues (tx : DynamicFeeTxOf slice)
    (chainID v r s : option Z) (h : heap) : DynamicFeeTxOf slice * heap :=
  let '(tx, h) := match v with
                  | Some v => let '(b, h) := Bytes v h in (set_V tx b, h)
                  | None => (tx, h)
                  end in
  let '(tx, h) := match r with
                  | Some r => let '(b, h) := Bytes r h in (set_R tx b, h)
                  | None => (tx, h)
                  end in
  let '(tx, h) := match s with
                  | Some s => let '(b, h) := Bytes s h in (set_S tx b, h)
                  | None => (tx, h)
                  end in
  match chainID with
  | Some chainID =>
      let chainIDInt := sdk.NewIntFromBigInt chainID in
      (set_ChainID tx (Some chainIDInt), h)
  | None => (tx, h)
  end.

Section constructor.
Variable Hex : common.Address -> string.
Variable NewAccessList : ethtypes.AccessList -> AccessList.

(** [newDynamicFeeTx], for an external object [tx] whose [Data] accessor
    returns the slice [data]; the other accessors are those of [tx]. *)
Definition newDynamicFeeTx (tx : ethtypes.Transaction.t) (data : slice)
    (h : heap) : DynamicFeeTxOf slice * heap :=
  let txData : DynamicFeeTxOf slice :=
    {| ChainID := None;
       Nonce := ethtypes.Transaction.Nonce tx;
       GasTipCap := None;
       GasFeeCap := None;
       GasLimit := ethtypes.Transaction.Gas tx;
       To := "";
       Amount := None;
       Data := data;
       Accesses := None;
       V := None; R := None; S := None |} in
  let '(v, r, s) := ethtypes.Transaction.RawSignatureValues tx in
  let txData := match ethtypes.Transaction.To tx with
                | Some to => set_To txData (Hex to)
                | None => txData
                end in
  let txData := match ethtypes.Transaction.Value tx with
                | Some value =>
                    let amountInt := sdk.NewIntFromBigInt value in
                    set_Amount txData (Some amountInt)
                | None => txData
                end in
  let txData := match ethtypes.Transaction.GasFeeCap tx with
                | Some gasFeeCap =>
                    let gasFeeCapInt := sdk.NewIntFromBigInt gasFeeCap in
                    set_GasFeeCap txData (Some gasFeeCapInt)
                | None => txData
                end in
  let txData := match ethtypes.Transaction.GasTipCap tx with
                | Some gasTipCap =>
                    let gasTipCapInt := sdk.NewIntFromBigInt gasTipCap in
                    set_GasTipCap txData (Some gasTipCapInt)
                | None => txData
                end in
  let txData := match ethtypes.Transaction.AccessList tx with
                | Some al => set_Accesses txData (NewAccessList (Some al))
                | None => txData
                end in
  SetSignatureValues txData (ethtypes.Transaction.ChainId tx) v r s h.
End constructor.

End mem_ops.

(** A heap that holds the payload of [sample.transfer] and the slice of
    it; a transfer signed with parity one; a transaction that differs from
    [sample.tx] in every field [Validate] does not read. *)
Module sample_more.

Definition heap : gmap mem.loc (list byte) :=
  <[1%positive := ["222"; "173"; "190"; "239"]%byte]> ∅.

Definition data : mem.slice :=
  Some {| mem.ptr := 1%positive; mem.off := 0; mem.len := 4 |}.

Definition signed : ethtypes.Transaction.t :=
  {| ethtypes.Transaction.Nonce := 8;
     ethtypes.Transaction.Data := ["222"; "173"; "190"; "239"]%byte;
     ethtypes.Transaction.Gas := 21000;
     ethtypes.Transaction.To := Some sample.address;
     ethtypes.Transaction.Value := Some 1000;
     ethtypes.Transaction.GasFeeCap := Some 100;
     ethtypes.Transaction.GasTipCap := Some 2;
     ethtypes.Transaction.AccessList :=
       Some [ {| ethtypes.Address := sample.address;
                 ethtypes.StorageKeys := [sample.storage_key] |} ];
     ethtypes.Transaction.ChainId := Some 9000;
     ethtypes.Transaction.RawSignatureValues :=
       (Some 1, Some 81985529216486895, Some 4660) |}.

Definition unsigned_other : DynamicFeeTx :=
  {| ChainID := ChainID sample.tx;
     Nonce := 0;
     GasTipCap := Some (sdk.NewIntFromBigInt 1000000);
     GasFeeCap := GasFeeCap sample.tx;
     GasLimit := 0;
     To := To sample.tx;
     Amount := Amount sample.tx;
     Data := ["001"]%byte;
     Accesses := Some [];
     V := ["000"]%byte; R := []; S := ["255"]%byte |}.

End sample_more.

(** * Properties *)

(** ** Big-endian bytes of integers *)
Module big_facts.
Import big.

Lemma to_N_byte_of_N (n : N) : (n < 256)%N -> Byte.to_N (byte_of_N n) = n.
Proof.
  intros Hn. unfold byte_of_N.
  destruct (Byte.of_N n) as [b|] eqn:E.
  - now apply Byte.to_of_N.
  - apply Byte.of_N_None_iff in E. lia.
Qed.

Lemma le_digits_value (fuel : nat) :
  forall n : N, (n < 2 ^ N.of_nat fuel)%N -> le_value (le_digits fuel n) = n.
Proof.
  induction fuel as [|fuel IH]; intros n Hn.
  - simpl in *. lia.
  - cbn [le_digits]. destruct (N.eqb_spec n 0) as [->|Hnz]; [reflexivity|].
    cbn [le_value fold_right]. fold (le_value (le_digits fuel (n / 256))).
    rewrite to_N_byte_of_N by (apply N.mod_lt; lia).
    rewrite IH.
    + pose proof (N.div_mod n 256). lia.
    + apply N.Div0.div_lt_upper_bound.
      rewrite Nat2N.inj_succ, N.pow_succ_r' in Hn.
      pose proof (N.pow_nonzero 2 (N.of_nat fuel)). lia.
Qed.

Lemma be_value_snoc (l : list byte) (b : byte) :
  be_value (l ++ [b]) = (be_value l * 256 + Byte.to_N b)%N.
Proof. unfold be_value. now rewrite fold_left_app. Qed.

Lemma be_value_rev (l : list byte) : be_value (rev l) = le_value l.
Proof.
  induction l as [|b l IH]; [reflexivity|].
  cbn [rev]. rewrite be_value_snoc, IH. cbn [le_value fold_right].
  fold (le_value l). lia.
Qed.

(** Reading back the bytes of [x] gives its absolute value. *)
Lemma SetBytes_Bytes (x : Z) : SetBytes (Bytes x) = Z.abs x.
Proof.
  unfold SetBytes, Bytes. rewrite be_value_rev, le_digits_value.
  - apply N2Z.inj_abs_N.
  - rewrite N2Nat.id. apply N.size_gt.
Qed.

Lemma Bytes_abs (x : Z) : Bytes (Z.abs x) = Bytes x.
Proof. destruct x; reflexivity. Qed.

(** The bytes of an integer survive extraction with
    [rawSignatureValues] and a second [Bytes]. *)
Lemma Bytes_reparse (x : Z) :
  match Bytes x with
  | [] => []
  | _ => Bytes (SetBytes (Bytes x))
  end = Bytes x.
Proof.
  rewrite SetBytes_Bytes, Bytes_abs. now destruct (Bytes x).
Qed.

(** The same when a nil extracted scalar is replaced by zero before the
    second [Bytes]. *)
Lemma Bytes_reparse_zero (x : Z) :
  Bytes (default 0 match Bytes x with
                   | [] => None
                   | _ => Some (SetBytes (Bytes x))
                   end) = Bytes x.
Proof.
  pose proof (Bytes_reparse x) as H.
  destruct (Bytes x) eqn:E; [reflexivity|exact H].
Qed.

End big_facts.

(** ** The hex codec decodes what it encodes *)
Module hexcodec_facts.
Import hexcodec.

Lemma nibble_of_nibble_char (n : N) :
  (n < 16)%N ->
  nibble_of_char (nibble_char n) = Some n
  /\ nibble_of_char (upper (nibble_char n)) = Some n.
Proof.
  intros Hn.
  assert (Hcases : In n (map N.of_nat (seq 0 16))).
  { apply in_map_iff. exists (N.to_nat n). split; [lia|].
    apply in_seq. lia. }
  cbn in Hcases.
  repeat (destruct Hcases as [<-|Hcases]; [split; reflexivity|]).
  destruct Hcases.
Qed.

Lemma byte_of_nibbles (b : byte) :
  big.byte_of_N (16 * (Byte.to_N b / 16) + Byte.to_N b mod 16) = b.
Proof.
  rewrite <- N.div_mod by lia.
  unfold big.byte_of_N. now rewrite Byte.of_to_N.
Qed.

Lemma nibbles_bounded (b : byte) :
  (Byte.to_N b / 16 < 16)%N /\ (Byte.to_N b mod 16 < 16)%N.
Proof.
  pose proof (Byte.to_N_bounded b). split.
  - apply N.Div0.div_lt_upper_bound. lia.
  - apply N.mod_lt. lia.
Qed.

(** Decoding ignores the letter case the checksum chose. *)
Lemma Hex2Bytes_checksum_case (bs : list byte) :
  forall hash, Hex2Bytes (checksum_case hash (encode bs)) = bs.
Proof.
  induction bs as [|b bs IH]; intros hash; [reflexivity|].
  cbn [encode checksum_case Hex2Bytes].
  destruct (nibbles_bounded b) as [Hhi Hlo].
  destruct (nibble_of_nibble_char _ Hhi) as [Hhi1 Hhi2].
  destruct (nibble_of_nibble_char _ Hlo) as [Hlo1 Hlo2].
  assert (Ha : forall c : bool,
             nibble_of_char (if c then upper (nibble_char (Byte.to_N b / 16))
                             else nibble_char (Byte.to_N b / 16))
             = Some (Byte.to_N b / 16)%N) by (intros []; assumption).
  assert (Hb : forall c : bool,
             nibble_of_char (if c then upper (nibble_char (Byte.to_N b mod 16))
                             else nibble_char (Byte.to_N b mod 16))
             = Some (Byte.to_N b mod 16)%N) by (intros []; assumption).
  rewrite Ha, Hb, IH, byte_of_nibbles. reflexivity.
Qed.

Lemma Hex2Bytes_encode (bs : list byte) : Hex2Bytes (encode bs) = bs.
Proof.
  induction bs as [|b bs IH]; [reflexivity|].
  cbn [encode Hex2Bytes].
  destruct (nibbles_bounded b) as [Hhi Hlo].
  destruct (nibble_of_nibble_char _ Hhi) as [-> _].
  destruct (nibble_of_nibble_char _ Hlo) as [-> _].
  now rewrite IH, byte_of_nibbles.
Qed.

Lemma length_encode (bs : list byte) :
  String.length (encode bs) = (2 * length bs)%nat.
Proof. induction bs as [|b bs IH]; cbn [encode String.length length]; lia. Qed.

Lemma length_checksum_case (s : string) :
  forall hash, String.length (checksum_case hash s) = String.length s.
Proof.
  revert s. fix IH 1. intros [|a [|b s]] hash; try reflexivity.
  cbn [checksum_case String.length]. now rewrite IH.
Qed.

Lemma substring_all (s : string) : String.substring 0 (String.length s) s = s.
Proof. induction s as [|a s IH]; cbn; [reflexivity | now rewrite IH]. Qed.

(** [FromHex] of a prefixed, even-length string decodes its digits. *)
Lemma FromHex_0x (digits : string) :
  Nat.odd (String.length digits) = false ->
  FromHex ("0x" +:+ digits) = Hex2Bytes digits.
Proof.
  intros Hlen. unfold FromHex.
  change ("0x" +:+ digits) with (String "0" (String "x" digits)).
  cbn [has0xPrefix].
  replace (Ascii.eqb "x" "x") with true by reflexivity.
  cbn [orb String.length].
  replace (Datatypes.S (Datatypes.S (String.length digits)) - 2)%nat
    with (String.length digits) by lia.
  cbn [String.substring]. rewrite substring_all, Hlen. reflexivity.
Qed.

Lemma vec_of_list_to_list {n} (v : vec byte n) :
  vec_of_list n (vec_to_list v) = v.
Proof.
  induction v as [|x n v IH]; [reflexivity|].
  cbn [vec_of_list vec_to_list hd tl]. now rewrite IH.
Qed.

Lemma SetBytes_vec_to_list {n} (v : vec byte n) :
  SetBytes n (vec_to_list v) = v.
Proof.
  unfold SetBytes. rewrite length_vec_to_list, Nat.sub_diag, drop_0.
  rewrite length_vec_to_list, Nat.sub_diag. cbn [replicate app].
  apply vec_of_list_to_list.
Qed.

Lemma odd_double (n : nat) : Nat.odd (2 * n) = false.
Proof.
  rewrite <- Nat.negb_even, Nat.even_mul. reflexivity.
Qed.

(** The address codec: decoding the checksummed text of an address gives
    the address, whatever the checksum function. *)
Lemma HexToAddress_Hex (keccak : list byte -> list byte) (a : common.Address) :
  HexToAddress (Hex keccak a) = a.
Proof.
  unfold HexToAddress, Hex. rewrite FromHex_0x.
  - rewrite Hex2Bytes_checksum_case. apply SetBytes_vec_to_list.
  - rewrite length_checksum_case, length_encode. apply odd_double.
Qed.

Lemma Hex_nonempty (keccak : list byte -> list byte) (a : common.Address) :
  Hex keccak a <> "".
Proof. unfold Hex. discriminate. Qed.

Lemma HexToHash_HashHex (h : common.Hash) : HexToHash (HashHex h) = h.
Proof.
  unfold HexToHash, HashHex. rewrite FromHex_0x.
  - rewrite Hex2Bytes_encode. apply SetBytes_vec_to_list.
  - rewrite length_encode. apply odd_double.
Qed.

Lemma ToEthAccessTuple_New (keccak : list byte -> list byte)
    (t : ethtypes.AccessTuple) :
  ToEthAccessTuple (NewAccessTuple keccak t) = t.
Proof.
  destruct t as [a keys]. unfold ToEthAccessTuple, NewAccessTuple.
  cbn [Address StorageKeys ethtypes.Address ethtypes.StorageKeys].
  rewrite HexToAddress_Hex. f_equal.
  induction keys as [|k keys IH]; [reflexivity|].
  cbn [map]. now rewrite HexToHash_HashHex, IH.
Qed.

(** The access-list conversions are inverse to each other on non-nil
    lists. *)
Lemma ToEthAccessList_New (keccak : list byte -> list byte)
    (al : list ethtypes.AccessTuple) :
  ToEthAccessList (NewAccessList keccak (Some al)) = Some al.
Proof.
  unfold ToEthAccessList, NewAccessList. cbn [default from_option id]. f_equal.
  induction al as [|t al IH]; [reflexivity|].
  cbn [map]. now rewrite ToEthAccessTuple_New, IH.
Qed.

End hexcodec_facts.

(** ** The transaction data *)
Section dynamic_fee_tx_facts.

Variable Hex : common.Address -> string.
Variable HexToAddress : string -> common.Address.
Variable NewAccessList : ethtypes.AccessList -> AccessList.
Variable ToEthAccessList : AccessList -> ethtypes.AccessList.
Variable ValidateAddress : string -> option error.

Implicit Type tx : DynamicFeeTx.
Implicit Type e : ethtypes.Transaction.t.

(** All fields of a constructed transaction at once. *)
Lemma newDynamicFeeTx_fields e :
  newDynamicFeeTx Hex NewAccessList e =
  {| ChainID := sdk.NewIntFromBigInt <$> ethtypes.Transaction.ChainId e;
     Nonce := ethtypes.Transaction.Nonce e;
     GasTipCap := sdk.NewIntFromBigInt <$> ethtypes.Transaction.GasTipCap e;
     GasFeeCap := sdk.NewIntFromBigInt <$> ethtypes.Transaction.GasFeeCap e;
     GasLimit := ethtypes.Transaction.Gas e;
     To := match ethtypes.Transaction.To e with
           | Some to => Hex to
           | None => ""
           end;
     Amount := sdk.NewIntFromBigInt <$> ethtypes.Transaction.Value e;
     Data := ethtypes.Transaction.Data e;
     Accesses := match ethtypes.Transaction.AccessList e with
                 | Some al => NewAccessList (Some al)
                 | None => None
                 end;
     V := stored_bytes (ethtypes.Transaction.RawSignatureValues e).1.1;
     R := stored_bytes (ethtypes.Transaction.RawSignatureValues e).1.2;
     S := stored_bytes (ethtypes.Transaction.RawSignatureValues e).2 |}.
Proof.
  destruct e as [nonce data gas to value feeCap tipCap al chainId [[v r] s]].
  unfold newDynamicFeeTx, SetSignatureValues.
  cbn [ethtypes.Transaction.Nonce ethtypes.Transaction.Data
       ethtypes.Transaction.Gas ethtypes.Transaction.To
       ethtypes.Transaction.Value ethtypes.Transaction.GasFeeCap
       ethtypes.Transaction.GasTipCap ethtypes.Transaction.AccessList
       ethtypes.Transaction.ChainId ethtypes.Transaction.RawSignatureValues
       fst snd].
  destruct to, value, feeCap, tipCap, al, chainId, v, r, s; reflexivity.
Qed.

Lemma stored_bytes_reparse (x : option Z) :
  stored_bytes
    match stored_bytes x with
    | [] => None
    | _ => Some (big.SetBytes (stored_bytes x))
    end = stored_bytes x.
Proof.
  destruct x as [x|]; [|reflexivity]. cbn [stored_bytes].
  pose proof (big_facts.Bytes_reparse x) as H.
  destruct (big.Bytes x) eqn:E; [reflexivity|exact H].
Qed.

(** All fields of the transaction built from an exported one, first with
    the accessors reading the exported fields, then through [NewTx]. *)
Lemma reconverted_fields tx :
  newDynamicFeeTx Hex NewAccessList
    (ethtypes.setDecoded (AsEthereumData HexToAddress ToEthAccessList tx)) =
  {| ChainID := sdk.NewIntFromBigInt <$> GetChainID tx;
     Nonce := Nonce tx;
     GasTipCap := sdk.NewIntFromBigInt <$> GetGasTipCap tx;
     GasFeeCap := sdk.NewIntFromBigInt <$> GetGasFeeCap tx;
     GasLimit := GasLimit tx;
     To := match GetTo HexToAddress tx with
           | Some to => Hex to
           | None => ""
           end;
     Amount := sdk.NewIntFromBigInt <$> GetValue tx;
     Data := Data tx;
     Accesses := match GetAccessList ToEthAccessList tx with
                 | Some al => NewAccessList (Some al)
                 | None => None
                 end;
     V := stored_bytes (rawSignatureValues (V tx) (R tx) (S tx)).1.1;
     R := stored_bytes (rawSignatureValues (V tx) (R tx) (S tx)).1.2;
     S := stored_bytes (rawSignatureValues (V tx) (R tx) (S tx)).2 |}.
Proof. rewrite newDynamicFeeTx_fields. reflexivity. Qed.

Lemma reconverted_NewTx_fields tx :
  newDynamicFeeTx Hex NewAccessList
    (ethtypes.NewTx (AsEthereumData HexToAddress ToEthAccessList tx)) =
  {| ChainID := Some (sdk.NewIntFromBigInt (default 0 (GetChainID tx)));
     Nonce := Nonce tx;
     GasTipCap := Some (sdk.NewIntFromBigInt (default 0 (GetGasTipCap tx)));
     GasFeeCap := Some (sdk.NewIntFromBigInt (default 0 (GetGasFeeCap tx)));
     GasLimit := GasLimit tx;
     To := match GetTo HexToAddress tx with
           | Some to => Hex to
           | None => ""
           end;
     Amount := Some (sdk.NewIntFromBigInt (default 0 (GetValue tx)));
     Data := Data tx;
     Accesses :=
       NewAccessList (Some (default [] (GetAccessList ToEthAccessList tx)));
     V := big.Bytes (default 0 (rawSignatureValues (V tx) (R tx) (S tx)).1.1);
     R := big.Bytes (default 0 (rawSignatureValues (V tx) (R tx) (S tx)).1.2);
     S := big.Bytes (default 0 (rawSignatureValues (V tx) (R tx) (S tx)).2) |}.
Proof. rewrite newDynamicFeeTx_fields. reflexivity. Qed.

(** C1. Round trip: a transaction [t] built by [newDynamicFeeTx] from an
    external transaction object is reproduced, field for field, by
    exporting it with [AsEthereumData] and converting the result again
    with [newDynamicFeeTx]. The byte-sequence fields are lists, so their
    equality is equality of content. The codec of [common] and the
    access-list conversions are the ones consumed from outside the file:
    decoding the text of an address gives the address, that text is never
    empty, and a converted access list converts back. *)
Theorem newDynamicFeeTx_AsEthereumData_roundtrip :
  (forall a, HexToAddress (Hex a) = a) ->
  (forall a, Hex a <> "") ->
  (forall al, ToEthAccessList (NewAccessList (Some al)) = Some al) ->
  forall e,
    let t := newDynamicFeeTx Hex NewAccessList e in
    newDynamicFeeTx Hex NewAccessList
      (ethtypes.setDecoded (AsEthereumData HexToAddress ToEthAccessList t)) = t.
Proof.
  intros Hcodec Hne Hal e t. subst t.
  rewrite reconverted_fields, (newDynamicFeeTx_fields e).
  unfold GetChainID, GetGasTipCap, GetGasFeeCap, GetTo, GetValue,
    GetAccessList, rawSignatureValues.
  cbn [ChainID Nonce GasTipCap GasFeeCap GasLimit To Amount Data Accesses
       V R S fst snd].
  f_equal.
  - now destruct (ethtypes.Transaction.ChainId e).
  - now destruct (ethtypes.Transaction.GasTipCap e).
  - now destruct (ethtypes.Transaction.GasFeeCap e).
  - destruct (ethtypes.Transaction.To e) as [a|]; [|reflexivity].
    destruct (String.eqb_spec (Hex a) "") as [E|_]; [now apply Hne in E|].
    now rewrite Hcodec.
  - now destruct (ethtypes.Transaction.Value e).
  - destruct (ethtypes.Transaction.AccessList e) as [al|]; [|reflexivity].
    destruct (NewAccessList (Some al)) as [A|] eqn:E; [|reflexivity].
    rewrite <- E, Hal. reflexivity.
  - apply stored_bytes_reparse.
  - apply stored_bytes_reparse.
  - apply stored_bytes_reparse.
Qed.

(** The round trip also holds through [NewTx], whose deep copy turns nil
    integers into zeros and a nil access list into an empty one: on
    transactions built from a [NewTx] object no field is nil, and the zero
    that replaces a nil signature scalar has the empty bytes the field
    had. Of the access-list conversions it needs that a converted list is
    not nil and converts back to the same tuples. *)
Lemma roundtrip_through_NewTx :
  (forall a, HexToAddress (Hex a) = a) ->
  (forall a, Hex a <> "") ->
  (forall al, is_Some (NewAccessList (Some al))) ->
  (forall al, default [] (ToEthAccessList (NewAccessList (Some al))) = al) ->
  forall inner,
    let t := newDynamicFeeTx Hex NewAccessList (ethtypes.NewTx inner) in
    newDynamicFeeTx Hex NewAccessList
      (ethtypes.NewTx (AsEthereumData HexToAddress ToEthAccessList t)) = t.
Proof.
  intros Hcodec Hne Hsome Hal inner t. subst t.
  rewrite reconverted_NewTx_fields, (newDynamicFeeTx_fields (ethtypes.NewTx inner)).
  destruct inner as [chainId nonce tipCap feeCap gas to value data al v r s].
  unfold GetChainID, GetGasTipCap, GetGasFeeCap, GetTo, GetValue,
    GetAccessList, rawSignatureValues, ethtypes.NewTx, ethtypes.setDecoded,
    ethtypes.DynamicFeeTx.copy.
  cbn [ethtypes.Transaction.Nonce ethtypes.Transaction.Data
       ethtypes.Transaction.Gas ethtypes.Transaction.To
       ethtypes.Transaction.Value ethtypes.Transaction.GasFeeCap
       ethtypes.Transaction.GasTipCap ethtypes.Transaction.AccessList
       ethtypes.Transaction.ChainId ethtypes.Transaction.RawSignatureValues
       ethtypes.DynamicFeeTx.Nonce ethtypes.DynamicFeeTx.Data
       ethtypes.DynamicFeeTx.Gas ethtypes.DynamicFeeTx.To
       ethtypes.DynamicFeeTx.Value ethtypes.DynamicFeeTx.GasFeeCap
       ethtypes.DynamicFeeTx.GasTipCap ethtypes.DynamicFeeTx.AccessList
       ethtypes.DynamicFeeTx.ChainID ethtypes.DynamicFeeTx.V
       ethtypes.DynamicFeeTx.R ethtypes.DynamicFeeTx.S
       ChainID Nonce GasTipCap GasFeeCap GasLimit To Amount Data Accesses
       V R S fst snd fmap option_fmap option_map stored_bytes].
  f_equal.
  - destruct to as [a|]; [|reflexivity].
    destruct (String.eqb_spec (Hex a) "") as [E|_]; [now apply Hne in E|].
    now rewrite Hcodec.
  - destruct (Hsome (default [] al)) as [A E].
    rewrite E, <- E, Hal. reflexivity.
  - apply big_facts.Bytes_reparse_zero.
  - apply big_facts.Bytes_reparse_zero.
  - apply big_facts.Bytes_reparse_zero.
Qed.

(** Off the image of [newDynamicFeeTx] the round trip can fail: a byte
    field with a leading zero comes back without it. *)
Lemma roundtrip_needs_constructed :
  newDynamicFeeTx Hex NewAccessList
    (ethtypes.setDecoded
       (AsEthereumData HexToAddress ToEthAccessList sample.padded))
  <> sample.padded.
Proof.
  intros E. apply (f_equal V) in E.
  rewrite newDynamicFeeTx_fields in E. discriminate E.
Qed.

(** Closes one case of the decision list of [Validate]. *)
Local Ltac validate_case :=
  cbn [or_else negb];
  repeat split; intros;
  repeat match goal with
    | H : _ /\ _ |- _ => destruct H
    | H : _ \/ _ |- _ => destruct H
    | H : Some _ = Some _ |- _ => injection H as <-
    end;
  try contradiction; try lia; try congruence;
  try (left; congruence); try (right; congruence).

Lemma Sign_negative (x : Z) : (big.Sign x =? -1) = (x <? 0).
Proof. now destruct x. Qed.

(** A transaction that meets the four conditions passes [Validate]. *)
Lemma Validate_passes tx :
  gas_price_valid tx -> amount_valid tx -> to_valid ValidateAddress tx ->
  chain_id_present tx -> Validate ValidateAddress tx = None.
Proof.
  unfold Validate, gas_price_valid, amount_valid, to_valid, chain_id_present.
  intros H1 H3 H4 H5.
  destruct (GetGasPrice tx) as [p|]; [|contradiction].
  rewrite Sign_negative. destruct (Z.ltb_spec p 0) as [Hp|Hp]; [lia|].
  assert (Hamount : match GetValue tx with
                    | Some a =>
                        if big.Sign a =? -1
                        then Some (Wrapf ErrInvalidAmount
                                     "amount cannot be negative " a)
                        else None
                    | None => None
                    end = None).
  { destruct (GetValue tx) as [a|]; [|reflexivity].
    rewrite Sign_negative. destruct (Z.ltb_spec a 0); [lia|reflexivity]. }
  cbv zeta. rewrite Hamount. cbn [or_else].
  destruct (GetChainID tx) as [c|]; [|contradiction].
  destruct H4 as [-> | ->]; [reflexivity|].
  destruct (negb _); reflexivity.
Qed.

(** C2. [Validate] applies five checks in order and returns the error of
    the first that fails: (1) a nil gas price (the fee cap), (2) a negative
    gas price, (3) a present negative amount, (4) a non-empty [To] that the
    address validator rejects, (5) a nil chain id. It returns no error
    exactly when all five pass. *)
Theorem Validate_checks tx :
  (GetGasPrice tx = None ->
   Validate ValidateAddress tx = Some (Wrap ErrInvalidGasPrice "cannot be nil"))
  /\ (forall gasPrice,
       GetGasPrice tx = Some gasPrice -> gasPrice < 0 ->
       Validate ValidateAddress tx =
       Some (Wrapf ErrInvalidGasPrice "gas price cannot be negative " gasPrice))
  /\ (forall amount,
       gas_price_valid tx ->
       GetValue tx = Some amount -> amount < 0 ->
       Validate ValidateAddress tx =
       Some (Wrapf ErrInvalidAmount "amount cannot be negative " amount))
  /\ (forall err,
       gas_price_valid tx -> amount_valid tx ->
       To tx <> "" -> ValidateAddress (To tx) = Some err ->
       Validate ValidateAddress tx = Some (Wrap err "invalid to address"))
  /\ (gas_price_valid tx -> amount_valid tx -> to_valid ValidateAddress tx ->
      GetChainID tx = None ->
      Validate ValidateAddress tx =
      Some (Wrap ErrInvalidChainID "chain ID must be present on AccessList txs"))
  /\ (Validate ValidateAddress tx = None <->
      gas_price_valid tx /\ amount_valid tx /\ to_valid ValidateAddress tx
      /\ chain_id_present tx).
Proof.
  unfold Validate, gas_price_valid, amount_valid, to_valid, chain_id_present.
  destruct (GetGasPrice tx) as [p|]; [|validate_case].
  rewrite Sign_negative. destruct (Z.ltb_spec p 0) as [Hp|Hp]; [validate_case|].
  destruct (GetValue tx) as [a|].
  - rewrite Sign_negative.
    destruct (Z.ltb_spec a 0) as [Ha|Ha]; [validate_case|].
    destruct (String.eqb_spec (To tx) "") as [Hto|Hto];
      destruct (ValidateAddress (To tx)) as [err|];
      destruct (GetChainID tx) as [c|]; validate_case.
  - destruct (String.eqb_spec (To tx) "") as [Hto|Hto];
      destruct (ValidateAddress (To tx)) as [err|];
      destruct (GetChainID tx) as [c|]; validate_case.
Qed.

(** C3. [Fee] is the gas price (the fee cap) times the gas limit and
    [Cost] is [Fee] plus the amount, a nil amount counting as zero, as
    unbounded integers. With fee cap 100, gas limit 21000 and amount 1000
    the fee is 2100000 and the cost 2101000; with a nil amount the cost is
    the fee. *)
Theorem Fee_Cost tx :
  (forall gasPrice,
     GetGasPrice tx = Some gasPrice ->
     Fee tx = Some (gasPrice * Z.of_N (GasLimit tx))
     /\ Cost tx = Some (gasPrice * Z.of_N (GasLimit tx) + default 0 (GetValue tx)))
  /\ (forall f, Fee tx = Some f -> Cost tx = Some (f + default 0 (GetValue tx)))
  /\ (GasFeeCap tx = Some (sdk.NewIntFromBigInt 100) ->
      GasLimit tx = 21000%N ->
      Amount tx = Some (sdk.NewIntFromBigInt 1000) ->
      Fee tx = Some 2100000 /\ Cost tx = Some 2101000)
  /\ (Amount tx = None -> Cost tx = Fee tx).
Proof.
  unfold Cost, Fee, cost, fee, GetGasPrice, GetGasFeeCap, GetValue, GetGas,
    big.SetUint64.
  split; [|split; [|split]].
  - intros p Hp. rewrite Hp. split; reflexivity.
  - intros f Hf. rewrite Hf. reflexivity.
  - intros -> -> ->. split; reflexivity.
  - intros ->. destruct (GasFeeCap tx) as [p|]; [|reflexivity].
    cbn [default from_option id]. f_equal. lia.
Qed.

(** C4. [SetSignatureValues] writes [V], [R], [S] and [ChainID] exactly
    where its argument is not nil and leaves every other field as it
    was. Hence [SetSignatureValues(nil, v, r, s)] followed by
    [SetSignatureValues(chainID, nil, nil, nil)] gives a transaction with
    the bytes of [v], [r], [s] and with [chainID]. *)
Theorem SetSignatureValues_partial tx (chainID v r s : option Z) :
  let tx' := SetSignatureValues tx chainID v r s in
  V tx' = match v with Some v => big.Bytes v | None => V tx end
  /\ R tx' = match r with Some r => big.Bytes r | None => R tx end
  /\ S tx' = match s with Some s => big.Bytes s | None => S tx end
  /\ ChainID tx' = match chainID with
                   | Some c => Some (sdk.NewIntFromBigInt c)
                   | None => ChainID tx
                   end
  /\ (Nonce tx' = Nonce tx /\ GasTipCap tx' = GasTipCap tx
      /\ GasFeeCap tx' = GasFeeCap tx /\ GasLimit tx' = GasLimit tx
      /\ To tx' = To tx /\ Amount tx' = Amount tx /\ Data tx' = Data tx
      /\ Accesses tx' = Accesses tx)
  /\ (forall c v0 r0 s0,
        let tx1 := SetSignatureValues tx None (Some v0) (Some r0) (Some s0) in
        let tx2 := SetSignatureValues tx1 (Some c) None None None in
        V tx2 = big.Bytes v0 /\ R tx2 = big.Bytes r0 /\ S tx2 = big.Bytes s0
        /\ ChainID tx2 = Some (sdk.NewIntFromBigInt c)
        /\ ChainID tx1 = ChainID tx
        /\ GetChainID tx2 = Some c
        /\ GetRawSignatureValues tx2 = GetRawSignatureValues tx1).
Proof.
  unfold SetSignatureValues.
  destruct chainID, v, r, s; repeat split; reflexivity.
Qed.

(** C6. Absence is preserved at construction: without a recipient [To]
    is the empty string and [GetTo] gives nil; a nil value, fee cap, tip
    cap or access list leaves [Amount], [GasFeeCap], [GasTipCap] or
    [Accesses] nil. *)
Theorem newDynamicFeeTx_preserves_absence e :
  let t := newDynamicFeeTx Hex NewAccessList e in
  (ethtypes.Transaction.To e = None ->
   To t = "" /\ GetTo HexToAddress t = None)
  /\ (ethtypes.Transaction.Value e = None -> Amount t = None)
  /\ (ethtypes.Transaction.GasFeeCap e = None -> GasFeeCap t = None)
  /\ (ethtypes.Transaction.GasTipCap e = None -> GasTipCap t = None)
  /\ (ethtypes.Transaction.AccessList e = None -> Accesses t = None).
Proof.
  intros t. subst t. rewrite newDynamicFeeTx_fields. unfold GetTo.
  cbn [To Amount GasFeeCap GasTipCap Accesses].
  split; [|split; [|split; [|split]]]; intros ->; [split|..]; reflexivity.
Qed.

(** C7. [GetGasPrice] returns what [GetGasFeeCap] returns, on every
    transaction; both are nil when the fee-cap field is nil. *)
Theorem GetGasPrice_is_GetGasFeeCap tx :
  GetGasPrice tx = GetGasFeeCap tx
  /\ (GasFeeCap tx = None ->
      GetGasPrice tx = None /\ GetGasFeeCap tx = None).
Proof.
  unfold GetGasPrice, GetGasFeeCap. split; [reflexivity|].
  intros ->. split; reflexivity.
Qed.

(** C9. [Validate] does not read [GasTipCap]: its result is the same for
    every tip cap, so a transaction that passes the five checks passes
    them with any tip cap, negative or above the fee cap included. *)
Theorem Validate_ignores_GasTipCap tx (tip : option sdk.Int) :
  Validate ValidateAddress (set_GasTipCap tx tip) = Validate ValidateAddress tx
  /\ (gas_price_valid tx -> amount_valid tx ->
      to_valid ValidateAddress tx -> chain_id_present tx ->
      Validate ValidateAddress (set_GasTipCap tx tip) = None).
Proof.
  assert (Heq : Validate ValidateAddress (set_GasTipCap tx tip)
                = Validate ValidateAddress tx) by reflexivity.
  split; [exact Heq|].
  intros H1 H3 H4 H5. rewrite Heq.
  now apply Validate_passes.
Qed.

(** C10. [GetTo] never fails: it gives nil exactly for the empty [To],
    and for any other string, valid address or not, the address
    [HexToAddress] coerces it to. [AsEthereumData] carries that address,
    also for a [To] that [Validate] rejects. *)
Theorem GetTo_total tx :
  (GetTo HexToAddress tx = None <-> To tx = "")
  /\ (To tx <> "" -> GetTo HexToAddress tx = Some (HexToAddress (To tx)))
  /\ ethtypes.DynamicFeeTx.To (AsEthereumData HexToAddress ToEthAccessList tx)
     = GetTo HexToAddress tx
  /\ (forall err,
        To tx <> "" -> ValidateAddress (To tx) = Some err ->
        ethtypes.DynamicFeeTx.To (AsEthereumData HexToAddress ToEthAccessList tx)
        = Some (HexToAddress (To tx))).
Proof.
  assert (Hexport :
    ethtypes.DynamicFeeTx.To (AsEthereumData HexToAddress ToEthAccessList tx)
    = GetTo HexToAddress tx).
  { unfold AsEthereumData.
    destruct (GetRawSignatureValues tx) as [[v r] s]. reflexivity. }
  rewrite Hexport. unfold GetTo.
  destruct (String.eqb_spec (To tx) "") as [Hto|Hto];
    repeat split; try easy.
Qed.

End dynamic_fee_tx_facts.

(** ** [Copy] and backing storage *)
Module mem_facts.
Import mem.

Implicit Type h : heap.
Implicit Type b c : slice.
Implicit Type tx : DynamicFeeTxOf slice.

Lemma points_into_mono (D D' : gset loc) b :
  D ⊆ D' -> points_into D b -> points_into D' b.
Proof. intros HD Hb w Hw. apply HD, Hb, Hw. Qed.

Local Ltac into H :=
  eapply points_into_mono; [|exact H];
  repeat first [assumption | reflexivity | etransitivity; [eassumption|]].

Lemma content_insert_fresh h b (bs : list byte) :
  points_into (dom h) b ->
  content (<[fresh (dom h) := bs]> h) b = content h b.
Proof.
  intros Hb. destruct b as [w|]; [|reflexivity].
  unfold content. rewrite lookup_insert_ne; [reflexivity|].
  intros E. specialize (Hb w eq_refl). rewrite <- E in Hb.
  now apply is_fresh in Hb.
Qed.

(** What one [CopyBytes] does to the heap. *)
Lemma CopyBytes_inv b h c h' :
  CopyBytes b h = (c, h') ->
  content h' c = content h b
  /\ dom h ⊆ dom h'
  /\ (forall b', points_into (dom h) b' -> content h' b' = content h b')
  /\ points_into (dom h') c
  /\ (forall w, c = Some w -> ptr w ∉ dom h).
Proof.
  unfold CopyBytes. destruct b as [w|]; intros [= <- <-].
  - split; [|split; [|split; [|split]]].
    + cbn [content ptr off len]. rewrite lookup_insert_eq.
      cbn [default from_option id]. rewrite drop_0, take_take.
      now rewrite Nat.min_id.
    + rewrite dom_insert_L. set_solver.
    + intros b' Hb'. now apply content_insert_fresh.
    + intros w' [= <-]. cbn [ptr]. rewrite dom_insert_L. set_solver.
    + intros w' [= <-]. cbn [ptr]. apply is_fresh.
  - split; [|split; [|split; [|split]]]; try easy.
Qed.

(** Writing through a slice changes no slice over another array. *)
Lemma store_frame b i x h h'' b' :
  store b i x h = Some h'' ->
  (forall w w', b = Some w -> b' = Some w' -> ptr w <> ptr w') ->
  content h'' b' = content h b'.
Proof.
  unfold store. destruct b as [w|]; [|discriminate].
  destruct (decide (i < len w)%nat); [|discriminate].
  intros [= <-] Hne. destruct b' as [w'|]; [|reflexivity].
  unfold content. rewrite lookup_alter_ne; [reflexivity|].
  now apply Hne.
Qed.

Lemma load_ext h1 h2 tx1 tx2 :
  ChainID tx1 = ChainID tx2 -> Nonce tx1 = Nonce tx2 ->
  GasTipCap tx1 = GasTipCap tx2 -> GasFeeCap tx1 = GasFeeCap tx2 ->
  GasLimit tx1 = GasLimit tx2 -> To tx1 = To tx2 ->
  Amount tx1 = Amount tx2 -> Accesses tx1 = Accesses tx2 ->
  (forall f, content h1 (field f tx1) = content h2 (field f tx2)) ->
  load h1 tx1 = load h2 tx2.
Proof.
  intros ? ? ? ? ? ? ? ? Hf. unfold load.
  pose proof (Hf FData). pose proof (Hf FV).
  pose proof (Hf FR). pose proof (Hf FS).
  cbn [field] in *. congruence.
Qed.

(** The facts about [Copy] from which its contract follows: the clone
    reads as the original did, the original still reads the same, and no
    slice of the clone points into an array that existed before. *)
Lemma Copy_inv tx h clone h' :
  allocated h tx ->
  Copy tx h = (clone, h') ->
  load h' clone = load h tx
  /\ load h' tx = load h tx
  /\ (forall f w, field f clone = Some w -> ptr w ∉ dom h)
  /\ (forall f, field f clone = None <-> field f tx = None).
Proof.
  intros Halloc. unfold Copy.
  destruct (CopyBytes (Data tx) h) as [data h1] eqn:E1.
  destruct (CopyBytes (V tx) h1) as [v h2] eqn:E2.
  destruct (CopyBytes (R tx) h2) as [r h3] eqn:E3.
  destruct (CopyBytes (S tx) h3) as [s h4] eqn:E4.
  intros [= <- <-].
  assert (Hnil : forall b h c h', CopyBytes b h = (c, h') -> c = None <-> b = None).
  { intros b0 h0 c0 h0'. unfold CopyBytes. destruct b0; intros [= <- <-]; easy. }
  pose proof (Hnil _ _ _ _ E1) as N1. pose proof (Hnil _ _ _ _ E2) as N2.
  pose proof (Hnil _ _ _ _ E3) as N3. pose proof (Hnil _ _ _ _ E4) as N4.
  apply CopyBytes_inv in E1 as (C1 & D1 & K1 & P1 & F1).
  apply CopyBytes_inv in E2 as (C2 & D2 & K2 & P2 & F2).
  apply CopyBytes_inv in E3 as (C3 & D3 & K3 & P3 & F3).
  apply CopyBytes_inv in E4 as (C4 & D4 & K4 & P4 & F4).
  assert (Horig : forall f, points_into (dom h) (field f tx))
    by (intros f w Hw; exact (Halloc f w Hw)).
  assert (Hkeep : forall b, points_into (dom h) b -> content h4 b = content h b).
  { intros b Hb.
    rewrite K4 by (into Hb). rewrite K3 by (into Hb).
    rewrite K2 by (into Hb). now apply K1. }
  split; [|split; [|split]].
  - apply load_ext; try reflexivity. intros [ | | | ]; cbn [field Data V R S].
    + rewrite K4 by (into P1). rewrite K3 by (into P1).
      rewrite K2 by (into P1). exact C1.
    + rewrite K4 by (into P2). rewrite K3 by (into P2).
      rewrite C2. apply K1, (Horig FV).
    + rewrite K4 by (into P3). rewrite C3.
      rewrite K2 by (into (Horig FR)). apply K1, (Horig FR).
    + rewrite C4. rewrite K3 by (into (Horig FS)).
      rewrite K2 by (into (Horig FS)). apply K1, (Horig FS).
  - apply load_ext; try reflexivity. intros f. apply Hkeep, Horig.
  - intros [ | | | ] w Hw; cbn [field Data V R S] in Hw.
    + now apply F1.
    + intros Hin. apply (F2 w Hw). now apply D1.
    + intros Hin. apply (F3 w Hw). now apply D2, D1.
    + intros Hin. apply (F4 w Hw). now apply D3, D2, D1.
  - intros [ | | | ]; cbn [field Data V R S]; assumption.
Qed.

(** C5. [Copy] returns a clone that equals the original field for field
    (a byte-sequence field of the clone is nil exactly when the original's
    is) and whose payload and signature bytes lie in new backing arrays:
    writing any byte of a byte-sequence field of the clone changes no
    field of the original, and writing any byte of the original changes
    no field of the clone. *)
Theorem Copy_independent tx h clone h' :
  allocated h tx ->
  Copy tx h = (clone, h') ->
  load h' clone = load h tx
  /\ (forall f, field f clone = None <-> field f tx = None)
  /\ (forall f w, field f clone = Some w -> ptr w ∉ dom h)
  /\ (forall f i x h'',
        store (field f clone) i x h' = Some h'' ->
        load h'' tx = load h' tx)
  /\ (forall f i x h'',
        store (field f tx) i x h' = Some h'' ->
        load h'' clone = load h' clone).
Proof.
  intros Halloc HCopy.
  destruct (Copy_inv _ _ _ _ Halloc HCopy) as (Heq & _ & Hfresh & Hnil).
  split; [exact Heq|]. split; [exact Hnil|]. split; [exact Hfresh|]. split.
  - intros f i x h'' Hstore. apply load_ext; try reflexivity.
    intros g. apply (store_frame _ _ _ _ _ _ Hstore).
    intros w w' Hw Hw' E. apply (Hfresh f w Hw).
    rewrite E. exact (Halloc g w' Hw').
  - intros f i x h'' Hstore. apply load_ext; try reflexivity.
    intros g. apply (store_frame _ _ _ _ _ _ Hstore).
    intros w w' Hw Hw' E. apply (Hfresh g w' Hw').
    rewrite <- E. exact (Halloc f w Hw).
Qed.

End mem_facts.

(** ** The execution context *)
Module statedb_facts.
Import statedb.

(** C8. For every block hash [bhash], [NewEmptyTxConfig bhash] has block
    hash [bhash], the all-zero transaction hash, and transaction index and
    log index 0. *)
Theorem NewEmptyTxConfig_fields (bhash : common.Hash) :
  BlockHash (NewEmptyTxConfig bhash) = bhash
  /\ TxHash (NewEmptyTxConfig bhash) = common.zero_Hash
  /\ vec_to_list (TxHash (NewEmptyTxConfig bhash)) = replicate 32 "000"%byte
  /\ TxIndex (NewEmptyTxConfig bhash) = 0%N
  /\ LogIndex (NewEmptyTxConfig bhash) = 0%N.
Proof. repeat split. Qed.

End statedb_facts.

(** ** The theorems at the sample data, with the hex codec *)

Lemma newDynamicFeeTx_AsEthereumData_roundtrip_witness :
  let Hex := hexcodec.Hex sample.keccak in
  let NewAccessList := hexcodec.NewAccessList sample.keccak in
  let t := newDynamicFeeTx Hex NewAccessList sample.transfer in
  newDynamicFeeTx Hex NewAccessList
    (ethtypes.setDecoded
       (AsEthereumData hexcodec.HexToAddress hexcodec.ToEthAccessList t)) = t.
Proof.
  exact (newDynamicFeeTx_AsEthereumData_roundtrip
           (hexcodec.Hex sample.keccak) hexcodec.HexToAddress
           (hexcodec.NewAccessList sample.keccak) hexcodec.ToEthAccessList
           (hexcodec_facts.HexToAddress_Hex sample.keccak)
           (hexcodec_facts.Hex_nonempty sample.keccak)
           (hexcodec_facts.ToEthAccessList_New sample.keccak)
           sample.transfer).
Defined.

(** [roundtrip_through_NewTx] for the hex codec. *)
Lemma roundtrip_through_NewTx_hexcodec (inner : ethtypes.DynamicFeeTx.t) :
  let Hex := hexcodec.Hex sample.keccak in
  let NewAccessList := hexcodec.NewAccessList sample.keccak in
  let t := newDynamicFeeTx Hex NewAccessList (ethtypes.NewTx inner) in
  newDynamicFeeTx Hex NewAccessList
    (ethtypes.NewTx
       (AsEthereumData hexcodec.HexToAddress hexcodec.ToEthAccessList t)) = t.
Proof.
  apply roundtrip_through_NewTx.
  - apply hexcodec_facts.HexToAddress_Hex.
  - apply hexcodec_facts.Hex_nonempty.
  - intros al. eexists. reflexivity.
  - intros al. now rewrite hexcodec_facts.ToEthAccessList_New.
Qed.

Lemma Validate_checks_witness :
  let Validate := Validate hexcodec.ValidateAddress in
  Validate (set_GasFeeCap sample.tx None)
  = Some (Wrap ErrInvalidGasPrice "cannot be nil")
  /\ Validate (set_GasFeeCap sample.tx (Some (sdk.NewIntFromBigInt (-1))))
     = Some (Wrap ErrInvalidGasPrice "gas price cannot be negative -1")
  /\ Validate (set_Amount (set_GasFeeCap sample.tx (Some (sdk.NewIntFromBigInt 0)))
                 (Some (sdk.NewIntFromBigInt (-5))))
     = Some (Wrap ErrInvalidAmount "amount cannot be negative -5")
  /\ Validate (set_To sample.tx "not-an-address")
     = Some (Wrap (Wrap ErrInvalidAddress
                     "address 'not-an-address' is not a valid ethereum hex address")
               "invalid to address")
  /\ Validate (set_ChainID sample.tx None)
     = Some (Wrap ErrInvalidChainID "chain ID must be present on AccessList txs")
  /\ Validate sample.tx = None.
Proof.
  cbv zeta. repeat apply conj.
  - apply (Validate_checks hexcodec.ValidateAddress). reflexivity.
  - apply (proj1 (proj2 (Validate_checks hexcodec.ValidateAddress
                           (set_GasFeeCap sample.tx (Some (sdk.NewIntFromBigInt (-1)))))) (-1));
      [reflexivity | lia].
  - apply (proj1 (proj2 (proj2 (Validate_checks hexcodec.ValidateAddress
             (set_Amount (set_GasFeeCap sample.tx (Some (sdk.NewIntFromBigInt 0)))
                (Some (sdk.NewIntFromBigInt (-5))))))) (-5));
      [cbn; lia | reflexivity | lia].
  - apply (proj1 (proj2 (proj2 (proj2 (Validate_checks hexcodec.ValidateAddress
             (set_To sample.tx "not-an-address"))))));
      [cbn; lia | cbn; lia | discriminate | reflexivity].
  - apply (proj1 (proj2 (proj2 (proj2 (proj2 (Validate_checks hexcodec.ValidateAddress
             (set_ChainID sample.tx None)))))));
      [cbn; lia | cbn; lia | right; reflexivity | reflexivity].
  - apply (proj2 (proj2 (proj2 (proj2 (proj2 (Validate_checks hexcodec.ValidateAddress
             sample.tx)))))).
    repeat apply conj; [cbn; lia | cbn; lia | right; reflexivity | discriminate].
Defined.

Lemma Fee_Cost_witness :
  Fee sample.tx = Some 2100000 /\ Cost sample.tx = Some 2101000
  /\ Cost (set_Amount sample.tx None) = Fee (set_Amount sample.tx None).
Proof.
  destruct (Fee_Cost sample.tx) as (_ & _ & Hexample & _).
  destruct (Hexample eq_refl eq_refl eq_refl) as [HFee HCost].
  destruct (Fee_Cost (set_Amount sample.tx None)) as (_ & _ & _ & Hnil).
  exact (conj HFee (conj HCost (Hnil eq_refl))).
Defined.

Lemma Copy_independent_witness :
  let copied := mem.Copy sample.heap_tx sample.heap in
  let clone := copied.1 in
  let h' := copied.2 in
  mem.allocated sample.heap sample.heap_tx
  /\ mem.load h' clone = mem.load sample.heap sample.heap_tx
  /\ (exists h'',
        mem.store (Data clone) 1 "255"%byte h' = Some h''
        /\ mem.load h'' sample.heap_tx = mem.load h' sample.heap_tx
        /\ mem.load h'' clone <> mem.load h' clone)
  /\ (exists h'',
        mem.store (S sample.heap_tx) 0 "255"%byte h' = Some h''
        /\ mem.load h'' clone = mem.load h' clone
        /\ mem.load h'' sample.heap_tx <> mem.load h' sample.heap_tx).
Proof.
  intros copied clone h'.
  assert (Halloc : mem.allocated sample.heap sample.heap_tx).
  { intros [ | | | ] w [= <-]; apply elem_of_dom; vm_compute; eauto. }
  destruct (mem_facts.Copy_independent sample.heap_tx sample.heap clone h'
              Halloc (surjective_pairing copied))
    as (Heq & _ & _ & Hclone & Horig).
  split; [exact Halloc|]. split; [exact Heq|]. split.
  - destruct (mem.store (Data clone) 1 "255"%byte h') as [h''|] eqn:E;
      [|vm_compute in E; discriminate E].
    exists h''. split; [reflexivity|].
    split; [exact (Hclone mem.FData 1%nat "255"%byte h'' E)|].
    vm_compute in E. injection E as <-. vm_compute. discriminate.
  - destruct (mem.store (S sample.heap_tx) 0 "255"%byte h') as [h''|] eqn:E;
      [|vm_compute in E; discriminate E].
    exists h''. split; [reflexivity|].
    split; [exact (Horig mem.FS 0%nat "255"%byte h'' E)|].
    vm_compute in E. injection E as <-. vm_compute. discriminate.
Defined.

Lemma newDynamicFeeTx_preserves_absence_witness :
  let t := newDynamicFeeTx (hexcodec.Hex sample.keccak)
             (hexcodec.NewAccessList sample.keccak) sample.creation in
  (To t = "" /\ GetTo hexcodec.HexToAddress t = None)
  /\ Amount t = None /\ GasFeeCap t = None /\ GasTipCap t = None
  /\ Accesses t = None.
Proof.
  destruct (newDynamicFeeTx_preserves_absence
              (hexcodec.Hex sample.keccak) hexcodec.HexToAddress
              (hexcodec.NewAccessList sample.keccak) sample.creation)
    as (HTo & HValue & HFeeCap & HTipCap & HAccessList).
  exact (conj (HTo eq_refl)
           (conj (HValue eq_refl)
              (conj (HFeeCap eq_refl)
                 (conj (HTipCap eq_refl) (HAccessList eq_refl))))).
Defined.

Lemma GetGasPrice_is_GetGasFeeCap_witness :
  GetGasPrice (set_GasFeeCap sample.tx None) = None
  /\ GetGasFeeCap (set_GasFeeCap sample.tx None) = None
  /\ GetGasPrice sample.tx = Some 100.
Proof.
  destruct (GetGasPrice_is_GetGasFeeCap (set_GasFeeCap sample.tx None))
    as [_ Hnil].
  destruct (Hnil eq_refl) as [HPrice HFeeCap].
  destruct (GetGasPrice_is_GetGasFeeCap sample.tx) as [Halias _].
  split; [exact HPrice|]. split; [exact HFeeCap|].
  rewrite Halias. reflexivity.
Defined.

Lemma Validate_ignores_GasTipCap_witness :
  Validate hexcodec.ValidateAddress
    (set_GasTipCap sample.tx (Some (sdk.NewIntFromBigInt (-1)))) = None
  /\ Validate hexcodec.ValidateAddress
       (set_GasTipCap sample.tx (Some (sdk.NewIntFromBigInt 1000000))) = None
  /\ Validate hexcodec.ValidateAddress (set_GasTipCap sample.tx None) = None.
Proof.
  assert (H1 : gas_price_valid sample.tx) by (cbn; lia).
  assert (H3 : amount_valid sample.tx) by (cbn; lia).
  assert (H4 : to_valid hexcodec.ValidateAddress sample.tx)
    by (right; reflexivity).
  assert (H5 : chain_id_present sample.tx) by discriminate.
  repeat apply conj;
    apply (Validate_ignores_GasTipCap hexcodec.ValidateAddress sample.tx);
    assumption.
Defined.

Lemma GetTo_total_witness :
  let tx := set_To sample.tx "not-an-address" in
  GetTo hexcodec.HexToAddress tx
  = Some (vreplicate common.AddressLength "000"%byte)
  /\ ethtypes.DynamicFeeTx.To
       (AsEthereumData hexcodec.HexToAddress hexcodec.ToEthAccessList tx)
     = Some (vreplicate common.AddressLength "000"%byte)
  /\ Validate hexcodec.ValidateAddress tx <> None
  /\ GetTo hexcodec.HexToAddress (set_To sample.tx "") = None.
Proof.
  intros tx.
  destruct (GetTo_total hexcodec.HexToAddress hexcodec.ToEthAccessList
              hexcodec.ValidateAddress tx) as (_ & Hsome & _ & Hexport).
  destruct (GetTo_total hexcodec.HexToAddress hexcodec.ToEthAccessList
              hexcodec.ValidateAddress (set_To sample.tx "")) as (Hnil & _).
  split; [rewrite Hsome by discriminate; reflexivity|].
  split; [rewrite (Hexport _ ltac:(discriminate) eq_refl); reflexivity|].
  split; [discriminate|]. apply Hnil. reflexivity.
Defined.

(** * Further properties *)

(** ** More on the big-endian bytes of integers *)
Module big_more.
Import big.

Lemma le_digits_zero (fuel : nat) : le_digits fuel 0 = [].
Proof. now destruct fuel. Qed.

(** Within the fuel, only zero has no digits. *)
Lemma le_digits_nil (fuel : nat) (n : N) :
  (n < 2 ^ N.of_nat fuel)%N -> le_digits fuel n = [] -> n = 0%N.
Proof.
  intros Hn E. rewrite <- (big_facts.le_digits_value fuel n Hn), E.
  reflexivity.
Qed.



Lemma size_fuel (n : N) : (n < 2 ^ N.of_nat (N.to_nat (N.size n)))%N.
Proof. rewrite N2Nat.id. apply N.size_gt. Qed.

(** [Bytes] is empty exactly for zero. *)
Lemma Bytes_nil_iff (x : Z) : Bytes x = [] <-> x = 0.
Proof.
  unfold Bytes. split.
  - intros E. apply (f_equal (@rev byte)) in E. rewrite rev_involutive in E.
    apply le_digits_nil in E; [lia|apply size_fuel].
  - intros ->. reflexivity.
Qed.



(** Extraction gives back a non-zero integer without its sign and gives
    nil for zero. *)
Lemma extracted_Bytes (x : Z) :
  extracted (Bytes x) = if x =? 0 then None else Some (Z.abs x).
Proof.
  unfold extracted. destruct (Z.eqb_spec x 0) as [->|Hx]; [reflexivity|].
  destruct (Bytes x) eqn:E.
  - now apply Bytes_nil_iff in E.
  - now rewrite <- E, big_facts.SetBytes_Bytes.
Qed.

End big_more.

(** ** More on the transaction data *)
Section dynamic_fee_tx_more.

Variable Hex : common.Address -> string.
Variable HexToAddress : string -> common.Address.
Variable NewAccessList : ethtypes.AccessList -> AccessList.
Variable ToEthAccessList : AccessList -> ethtypes.AccessList.
Variable ValidateAddress : string -> option error.

Implicit Type tx : DynamicFeeTx.
Implicit Type e : ethtypes.Transaction.t.


(** X1. What [GetRawSignatureValues] returns after [SetSignatureValues]:
    for a non-nil argument its absolute value, or nil if it is zero; for a
    nil argument what the field held before. The sign of a scalar and the
    difference between zero and nil do not survive storage. *)
Theorem GetRawSignatureValues_SetSignatureValues tx (chainID v r s : option Z) :
  GetRawSignatureValues (SetSignatureValues tx chainID v r s) =
  (reextracted v (V tx), reextracted r (R tx), reextracted s (S tx)).
Proof.
  unfold GetRawSignatureValues, rawSignatureValues, reextracted.
  fold (extracted (V (SetSignatureValues tx chainID v r s))).
  fold (extracted (R (SetSignatureValues tx chainID v r s))).
  fold (extracted (S (SetSignatureValues tx chainID v r s))).
  destruct chainID, v as [v|], r as [r|], s as [s|];
    cbn [SetSignatureValues set_V set_R set_S set_ChainID V R S];
    rewrite <- ?big_more.extracted_Bytes; reflexivity.
Qed.


(** X3. Two calls of [SetSignatureValues] amount to one call in which each
    argument is the later non-nil one; in particular a call repeated with
    the same arguments changes nothing more. *)
Theorem SetSignatureValues_twice tx (c1 v1 r1 s1 c2 v2 r2 s2 : option Z) :
  SetSignatureValues (SetSignatureValues tx c1 v1 r1 s1) c2 v2 r2 s2
  = SetSignatureValues tx (later_arg c2 c1) (later_arg v2 v1)
      (later_arg r2 r1) (later_arg s2 s1)
  /\ SetSignatureValues (SetSignatureValues tx c1 v1 r1 s1) c1 v1 r1 s1
     = SetSignatureValues tx c1 v1 r1 s1.
Proof.
  split.
  - destruct c1, v1, r1, s1, c2, v2, r2, s2; reflexivity.
  - destruct c1, v1, r1, s1; reflexivity.
Qed.

(** When [Validate] returns no error. *)
Lemma Validate_None_iff tx :
  Validate ValidateAddress tx = None <->
  gas_price_valid tx /\ amount_valid tx /\ to_valid ValidateAddress tx
  /\ chain_id_present tx.
Proof.
  split; [|intros (H1 & H3 & H4 & H5); now apply Validate_passes].
  unfold Validate, gas_price_valid, amount_valid, to_valid, chain_id_present.
  destruct (GetGasPrice tx) as [p|]; [|discriminate].
  rewrite Sign_negative. destruct (Z.ltb_spec p 0) as [Hp|Hp]; [discriminate|].
  cbv zeta.
  destruct (GetValue tx) as [a|].
  - rewrite Sign_negative.
    destruct (Z.ltb_spec a 0) as [Ha|Ha]; [discriminate|].
    cbn [or_else].
    destruct (String.eqb_spec (To tx) "") as [Hto|Hto]; cbn [negb or_else].
    + destruct (GetChainID tx); [|discriminate].
      intros _; repeat split; auto; discriminate.
    + destruct (ValidateAddress (To tx)); [discriminate|]. cbn [or_else].
      destruct (GetChainID tx); [|discriminate].
      intros _; repeat split; auto; discriminate.
  - cbn [or_else].
    destruct (String.eqb_spec (To tx) "") as [Hto|Hto]; cbn [negb or_else].
    + destruct (GetChainID tx); [|discriminate].
      intros _; repeat split; auto; discriminate.
    + destruct (ValidateAddress (To tx)); [discriminate|]. cbn [or_else].
      destruct (GetChainID tx); [|discriminate].
      intros _; repeat split; auto; discriminate.
Qed.

(** X4. [Validate] reads only the fee cap, the amount, the recipient and
    the chain id: two transactions that agree on these four fields get the
    same result, whatever their nonce, gas limit, tip cap, payload, access
    list and signature. *)
Theorem Validate_reads_four_fields tx tx' :
  GasFeeCap tx = GasFeeCap tx' -> Amount tx = Amount tx' ->
  To tx = To tx' -> ChainID tx = ChainID tx' ->
  Validate ValidateAddress tx = Validate ValidateAddress tx'.
Proof.
  intros H1 H2 H3 H4.
  unfold Validate, GetGasPrice, GetGasFeeCap, GetValue, GetChainID.
  now rewrite H1, H2, H3, H4.
Qed.

(** X5. Construction followed by validation: the transaction built from an
    external object passes [Validate] exactly when the object's fee cap is
    present and not negative, its value is nil or not negative, its chain
    id is present, and the text of its recipient, if it has one, is empty
    or accepted by the address validator. *)
Theorem Validate_newDynamicFeeTx e :
  Validate ValidateAddress (newDynamicFeeTx Hex NewAccessList e) = None <->
  (exists gasFeeCap,
      ethtypes.Transaction.GasFeeCap e = Some gasFeeCap /\ 0 <= gasFeeCap)
  /\ (forall value, ethtypes.Transaction.Value e = Some value -> 0 <= value)
  /\ (forall to, ethtypes.Transaction.To e = Some to ->
                Hex to = "" \/ ValidateAddress (Hex to) = None)
  /\ ethtypes.Transaction.ChainId e <> None.
Proof.
  rewrite Validate_None_iff, newDynamicFeeTx_fields.
  unfold gas_price_valid, amount_valid, to_valid, chain_id_present,
    GetGasPrice, GetGasFeeCap, GetValue, GetChainID.
  cbn [GasFeeCap Amount To ChainID].
  destruct (ethtypes.Transaction.GasFeeCap e) as [p|],
    (ethtypes.Transaction.Value e) as [a|],
    (ethtypes.Transaction.To e) as [to|],
    (ethtypes.Transaction.ChainId e) as [c|];
    cbn [fmap option_fmap option_map sdk.BigInt sdk.NewIntFromBigInt sdk.i];
    (split;
     [ intros (H1 & H3 & H4 & H5);
       try contradiction; try (now contradiction H5);
       (split; [now exists p|]);
       (split; [intros ? [=]; subst; assumption|]);
       (split; [intros ? [=]; subst; assumption|]); discriminate
     | intros ((q & Hq & Hq0) & H3 & H4 & H5);
       try discriminate Hq; try (now contradiction H5);
       injection Hq as <-;
       (split; [assumption|]);
       (split; [first [now apply H3 | exact I]|]);
       (split; [first [now apply H4 | now left]|]); discriminate ]).
Qed.

(** X6. A transaction that passes [Validate] has a fee and a cost, the fee
    is not negative and the cost is at least the fee. *)
Theorem Validate_Fee_Cost tx :
  Validate ValidateAddress tx = None ->
  exists f c, Fee tx = Some f /\ Cost tx = Some c /\ 0 <= f /\ f <= c.
Proof.
  rewrite Validate_None_iff. intros (H1 & H3 & _ & _).
  unfold gas_price_valid, amount_valid in *.
  unfold Cost, Fee, cost, fee, GetGas, big.SetUint64.
  destruct (GetGasPrice tx) as [p|]; [|contradiction].
  eexists _, _. split; [reflexivity|]. split; [reflexivity|].
  destruct (GetValue tx) as [a|]; cbn [default from_option id]; nia.
Qed.

(** X7. Signing and validation: [SetSignatureValues] with a nil chain id
    never changes the result of [Validate], and with a chain id it makes
    [Validate] succeed exactly when the first four checks pass. *)
Theorem Validate_SetSignatureValues tx (v r s : option Z) :
  Validate ValidateAddress (SetSignatureValues tx None v r s)
  = Validate ValidateAddress tx
  /\ (forall chainID,
        Validate ValidateAddress (SetSignatureValues tx (Some chainID) v r s)
        = None <->
        gas_price_valid tx /\ amount_valid tx /\ to_valid ValidateAddress tx).
Proof.
  split; [destruct v, r, s; reflexivity|].
  intros chainID. rewrite Validate_None_iff.
  assert (E : forall P : DynamicFeeTx -> Prop,
             (forall t t', GasFeeCap t = GasFeeCap t' -> Amount t = Amount t' ->
                           To t = To t' -> P t -> P t') ->
             P (SetSignatureValues tx (Some chainID) v r s) <-> P tx).
  { intros P HP. split; apply HP; destruct v, r, s; reflexivity. }
  rewrite (E gas_price_valid), (E amount_valid), (E (to_valid ValidateAddress)).
  - assert (H5 : chain_id_present (SetSignatureValues tx (Some chainID) v r s))
      by (destruct v, r, s; discriminate).
    tauto.
  - unfold to_valid. intros t t' _ _ <-. exact id.
  - unfold amount_valid, GetValue. intros t t' _ <- _. exact id.
  - unfold gas_price_valid, GetGasPrice, GetGasFeeCap. intros t t' <- _ _.
    exact id.
Qed.

(** X8. The other round trip: exporting the transaction built from an
    external object gives back every accessor result of the object, when
    its signature scalars are nil or positive. Of the codec it needs what
    [newDynamicFeeTx_AsEthereumData_roundtrip] needs, and that a converted
    access list is not nil. *)
Theorem AsEthereumData_newDynamicFeeTx e :
  (forall a, HexToAddress (Hex a) = a) ->
  (forall a, Hex a <> "") ->
  (forall al, is_Some (NewAccessList (Some al))) ->
  (forall al, ToEthAccessList (NewAccessList (Some al)) = Some al) ->
  nil_or_positive (ethtypes.Transaction.RawSignatureValues e).1.1 ->
  nil_or_positive (ethtypes.Transaction.RawSignatureValues e).1.2 ->
  nil_or_positive (ethtypes.Transaction.RawSignatureValues e).2 ->
  ethtypes.setDecoded
    (AsEthereumData HexToAddress ToEthAccessList
       (newDynamicFeeTx Hex NewAccessList e)) = e.
Proof.
  intros Hcodec Hne Hsome Hal Hv Hr Hs.
  assert (Hsig : forall x, nil_or_positive x -> extracted (stored_bytes x) = x).
  { intros [x|] Hx; [|reflexivity]. cbn [stored_bytes nil_or_positive] in *.
    rewrite big_more.extracted_Bytes.
    destruct (Z.eqb_spec x 0); [lia|]. f_equal. lia. }
  rewrite newDynamicFeeTx_fields.
  destruct e as [nonce data gas to value feeCap tipCap al chainId [[v r] s]].
  cbn [ethtypes.Transaction.RawSignatureValues fst snd] in Hv, Hr, Hs.
  unfold AsEthereumData, GetRawSignatureValues, rawSignatureValues.
  cbn [V R S ethtypes.Transaction.RawSignatureValues fst snd].
  fold (extracted (stored_bytes v)). fold (extracted (stored_bytes r)).
  fold (extracted (stored_bytes s)).
  rewrite (Hsig v Hv), (Hsig r Hr), (Hsig s Hs).
  unfold ethtypes.setDecoded, GetChainID, GetNonce, GetGasTipCap,
    GetGasFeeCap, GetGas, GetTo, GetValue, GetData, GetAccessList, CopyBytes.
  cbn [ethtypes.Transaction.Nonce ethtypes.Transaction.Data
       ethtypes.Transaction.Gas ethtypes.Transaction.To
       ethtypes.Transaction.Value ethtypes.Transaction.GasFeeCap
       ethtypes.Transaction.GasTipCap ethtypes.Transaction.AccessList
       ethtypes.Transaction.ChainId
       ethtypes.DynamicFeeTx.Nonce ethtypes.DynamicFeeTx.Data
       ethtypes.DynamicFeeTx.Gas ethtypes.DynamicFeeTx.To
       ethtypes.DynamicFeeTx.Value ethtypes.DynamicFeeTx.GasFeeCap
       ethtypes.DynamicFeeTx.GasTipCap ethtypes.DynamicFeeTx.AccessList
       ethtypes.DynamicFeeTx.ChainID ethtypes.DynamicFeeTx.V
       ethtypes.DynamicFeeTx.R ethtypes.DynamicFeeTx.S
       ChainID Nonce GasTipCap GasFeeCap GasLimit To Amount Data Accesses].
  f_equal.
  - destruct to as [a|].
    + destruct (String.eqb_spec (Hex a) "") as [E|_]; [now apply Hne in E|].
      now rewrite Hcodec.
    + reflexivity.
  - now destruct value.
  - now destruct feeCap.
  - now destruct tipCap.
  - destruct al as [al|]; [|reflexivity].
    destruct (Hsome al) as [A E]. rewrite E, <- E. apply Hal.
  - now destruct chainId.
Qed.

End dynamic_fee_tx_more.

(** ** More on byte slices and backing storage *)
Module mem_more.
Import mem.

Implicit Type h : heap.
Implicit Type b c : slice.
Implicit Type tx : DynamicFeeTxOf slice.

Lemma insert_fresh_subseteq h (bs : list byte) :
  h ⊆ <[fresh (dom h) := bs]> h.
Proof. apply insert_subseteq, not_elem_of_dom, is_fresh. Qed.

(** A slice into an array of [h] reads the same in every heap that keeps
    the arrays of [h]. *)
Lemma content_weaken h h' b :
  h ⊆ h' -> points_into (dom h) b -> content h' b = content h b.
Proof.
  intros Hsub Hb. destruct b as [w|]; [|reflexivity].
  specialize (Hb w eq_refl). apply elem_of_dom in Hb as [arr Harr].
  unfold content. now rewrite (lookup_weaken _ _ _ _ Harr Hsub), Harr.
Qed.

Lemma load_weaken h h' tx :
  h ⊆ h' -> allocated h tx -> load h' tx = load h tx.
Proof.
  intros Hsub Halloc. apply mem_facts.load_ext; try reflexivity.
  intros f. apply content_weaken; [exact Hsub|].
  intros w Hw. exact (Halloc f w Hw).
Qed.

Lemma CopyBytes_subseteq b h c h' : CopyBytes b h = (c, h') -> h ⊆ h'.
Proof.
  unfold CopyBytes. destruct b; intros [= <- <-];
    [apply insert_fresh_subseteq|reflexivity].
Qed.

(** Writing a byte through a slice updates what the slice reads. *)
Lemma store_content b i x h h'' :
  store b i x h = Some h'' -> content h'' b = <[i := x]> (content h b).
Proof.
  unfold store. destruct b as [w|]; [|discriminate].
  destruct (decide (i < len w)%nat) as [Hi|]; [|discriminate].
  intros [= <-]. unfold content. rewrite lookup_alter_eq.
  destruct (h !! ptr w) as [arr|]; cbn [fmap option_fmap option_map default
                                        from_option id];
    [|now rewrite drop_nil, take_nil].
  rewrite drop_insert_ge by lia.
  replace (off w + i - off w)%nat with i by lia.
  now rewrite take_insert_lt.
Qed.

Lemma Bytes_inv (x : Z) h b h' :
  mem_ops.Bytes x h = (b, h') ->
  content h' b = big.Bytes x /\ h ⊆ h' /\ points_into (dom h') b
  /\ (forall w, b = Some w -> ptr w ∉ dom h).
Proof.
  unfold mem_ops.Bytes. intros [= <- <-]. split; [|split; [|split]].
  - cbn [content ptr off len]. rewrite lookup_insert_eq.
    cbn [default from_option id]. now rewrite drop_0, firstn_all.
  - apply insert_fresh_subseteq.
  - intros w [= <-]. cbn [ptr]. rewrite dom_insert_L.
    apply elem_of_union_l, elem_of_singleton. reflexivity.
  - intros w [= <-]. cbn [ptr]. apply is_fresh.
Qed.

Lemma allocated_weaken h h' tx :
  h ⊆ h' -> allocated h tx -> allocated h' tx.
Proof.
  intros Hsub Halloc f w Hw. apply (subseteq_dom _ _ Hsub), (Halloc f w Hw).
Qed.

(** One conditional assignment of [SetSignatureValues]: the field [f]
    gets a new array with the bytes of [x], or nothing happens. *)
Lemma set_bytes_field_inv (f : bytes_field)
    (set : DynamicFeeTxOf slice -> slice -> DynamicFeeTxOf slice)
    (vset : DynamicFeeTx -> list byte -> DynamicFeeTx)
    tx (x : option Z) h tx' h' :
  (forall t b g, field g (set t b) = if decide (g = f) then b else field g t) ->
  (forall k t b, load k (set t b) = vset (load k t) (content k b)) ->
  allocated h tx ->
  match x with
  | Some x => let '(b, h) := mem_ops.Bytes x h in (set tx b, h)
  | None => (tx, h)
  end = (tx', h') ->
  h ⊆ h' /\ allocated h' tx'
  /\ load h' tx' = match x with
                   | Some x => vset (load h tx) (big.Bytes x)
                   | None => load h tx
                   end
  /\ (forall g, g <> f -> field g tx' = field g tx)
  /\ (forall g w, field g tx' = Some w ->
                 field g tx = Some w \/ ptr w ∉ dom h).
Proof.
  intros Hfield Hload Halloc. destruct x as [x|].
  - destruct (mem_ops.Bytes x h) as [b h1] eqn:E. intros [= <- <-].
    apply Bytes_inv in E as (Hc & Hsub & Hb & Hfresh).
    split; [exact Hsub|]. split; [|split; [|split]].
    + intros g w. rewrite Hfield. destruct (decide (g = f)); [apply Hb|].
      intros Hw. apply (subseteq_dom _ _ Hsub), (Halloc g w Hw).
    + now rewrite Hload, Hc, (load_weaken _ _ _ Hsub Halloc).
    + intros g Hg. rewrite Hfield. now destruct (decide (g = f)).
    + intros g w. rewrite Hfield.
      destruct (decide (g = f)); [right; now apply Hfresh|now left].
  - intros [= <- <-]. repeat split; auto.
Qed.

(** [SetSignatureValues] over slices does to the content what
    [SetSignatureValues] over content does, keeps every array that existed
    and touches no field but [V], [R], [S] and [ChainID]. *)
Lemma SetSignatureValues_inv tx (chainID v r s : option Z) h tx' h' :
  allocated h tx ->
  mem_ops.SetSignatureValues tx chainID v r s h = (tx', h') ->
  h ⊆ h' /\ allocated h' tx'
  /\ load h' tx' = SetSignatureValues (load h tx) chainID v r s
  /\ Data tx' = Data tx
  /\ (forall g w, field g tx' = Some w ->
                 field g tx = Some w \/ ptr w ∉ dom h).
Proof.
  intros Halloc. unfold mem_ops.SetSignatureValues.
  destruct (match v with
            | Some v => let '(b, h) := mem_ops.Bytes v h in (set_V tx b, h)
            | None => (tx, h)
            end) as [tx1 h1] eqn:E1.
  apply (set_bytes_field_inv FV set_V set_V) in E1
    as (S1 & A1 & L1 & F1 & O1); [|now intros t b [ | | | ]|reflexivity|exact Halloc].
  destruct (match r with
            | Some r => let '(b, h) := mem_ops.Bytes r h1 in (set_R tx1 b, h)
            | None => (tx1, h1)
            end) as [tx2 h2] eqn:E2.
  apply (set_bytes_field_inv FR set_R set_R) in E2
    as (S2 & A2 & L2 & F2 & O2); [|now intros t b [ | | | ]|reflexivity|exact A1].
  destruct (match s with
            | Some s => let '(b, h) := mem_ops.Bytes s h2 in (set_S tx2 b, h)
            | None => (tx2, h2)
            end) as [tx3 h3] eqn:E3.
  apply (set_bytes_field_inv FS set_S set_S) in E3
    as (S3 & A3 & L3 & F3 & O3); [|now intros t b [ | | | ]|reflexivity|exact A2].
  assert (Hsub : h ⊆ h3) by (etransitivity; [exact S1|etransitivity; eassumption]).
  assert (HData : Data tx3 = Data tx).
  { change (field FData tx3 = field FData tx).
    rewrite (F3 FData), (F2 FData), (F1 FData); [reflexivity|discriminate..]. }
  assert (Hload : load h3 tx3 = SetSignatureValues (load h tx) None v r s).
  { rewrite L3, L2, L1. unfold SetSignatureValues.
    destruct v, r, s; reflexivity. }
  assert (Hold : forall g w, field g tx3 = Some w ->
                             field g tx = Some w \/ ptr w ∉ dom h).
  { intros g w Hw.
    destruct (O3 g w Hw) as [Hw2|Hw2];
      [|right; intros Hin; apply Hw2, (subseteq_dom _ _ S2),
                 (subseteq_dom _ _ S1), Hin].
    destruct (O2 g w Hw2) as [Hw1|Hw1];
      [|right; intros Hin; apply Hw1, (subseteq_dom _ _ S1), Hin].
    exact (O1 g w Hw1). }
  destruct chainID as [c|]; intros [= <- <-].
  - split; [exact Hsub|]. split; [exact A3|].
    split; [|split; [exact HData|exact Hold]].
    change (load h3 (set_ChainID tx3 (Some (sdk.NewIntFromBigInt c))))
      with (set_ChainID (load h3 tx3) (Some (sdk.NewIntFromBigInt c))).
    rewrite Hload. unfold SetSignatureValues. destruct v, r, s; reflexivity.
  - split; [exact Hsub|]. split; [exact A3|].
    split; [|split; [exact HData|exact Hold]].
    rewrite Hload. reflexivity.
Qed.

Lemma Copy_steps tx h clone h' :
  Copy tx h = (clone, h') ->
  exists h1 h2 h3,
    CopyBytes (Data tx) h = (Data clone, h1)
    /\ CopyBytes (V tx) h1 = (V clone, h2)
    /\ CopyBytes (R tx) h2 = (R clone, h3)
    /\ CopyBytes (S tx) h3 = (S clone, h').
Proof.
  unfold Copy.
  destruct (CopyBytes (Data tx) h) as [data h1] eqn:E1.
  destruct (CopyBytes (V tx) h1) as [v h2] eqn:E2.
  destruct (CopyBytes (R tx) h2) as [r h3] eqn:E3.
  destruct (CopyBytes (S tx) h3) as [s h4] eqn:E4.
  intros [= <- <-]. exists h1, h2, h3. cbn [Data V R S]. auto.
Qed.

(** The byte-sequence fields of a clone lie in four different arrays. *)
Lemma Copy_fields_apart tx h clone h' :
  Copy tx h = (clone, h') ->
  forall f g w w',
    f <> g -> field f clone = Some w -> field g clone = Some w' ->
    ptr w <> ptr w'.
Proof.
  intros HCopy.
  destruct (Copy_steps _ _ _ _ HCopy) as (h1 & h2 & h3 & E1 & E2 & E3 & E4).
  apply mem_facts.CopyBytes_inv in E1 as (_ & D1 & _ & P1 & _).
  apply mem_facts.CopyBytes_inv in E2 as (_ & D2 & _ & P2 & F2).
  apply mem_facts.CopyBytes_inv in E3 as (_ & D3 & _ & P3 & F3).
  apply mem_facts.CopyBytes_inv in E4 as (_ & _ & _ & _ & F4).
  intros f g w w' Hfg Hw Hw' E.
  destruct f, g; try (now contradiction Hfg); cbn [field] in Hw, Hw'.
  - apply (F2 w' Hw'). rewrite <- E. exact (P1 w Hw).
  - apply (F3 w' Hw'). rewrite <- E. apply D2. exact (P1 w Hw).
  - apply (F4 w' Hw'). rewrite <- E. apply D3, D2. exact (P1 w Hw).
  - apply (F2 w Hw). rewrite E. exact (P1 w' Hw').
  - apply (F3 w' Hw'). rewrite <- E. exact (P2 w Hw).
  - apply (F4 w' Hw'). rewrite <- E. apply D3. exact (P2 w Hw).
  - apply (F3 w Hw). rewrite E. apply D2. exact (P1 w' Hw').
  - apply (F3 w Hw). rewrite E. exact (P2 w' Hw').
  - apply (F4 w' Hw'). rewrite <- E. exact (P3 w Hw).
  - apply (F4 w Hw). rewrite E. apply D3, D2. exact (P1 w' Hw').
  - apply (F4 w Hw). rewrite E. apply D3. exact (P2 w' Hw').
  - apply (F4 w Hw). rewrite E. exact (P3 w' Hw').
Qed.

(** X9. [GetData] returns a defensive copy: the slice returned reads as
    the payload does and is nil exactly when the payload is, no array that
    existed is changed, and a byte written through the returned slice
    shows in that slice and in no field of the transaction. *)
Theorem GetData_is_a_copy tx h b h' :
  allocated h tx ->
  mem_ops.GetData tx h = (b, h') ->
  content h' b = content h (Data tx)
  /\ (b = None <-> Data tx = None)
  /\ h ⊆ h'
  /\ (forall i x h'',
        store b i x h' = Some h'' ->
        content h'' b = <[i := x]> (content h' b)
        /\ load h'' tx = load h' tx).
Proof.
  intros Halloc HGet. unfold mem_ops.GetData in HGet.
  pose proof (CopyBytes_subseteq _ _ _ _ HGet) as Hsub.
  assert (Hnil : b = None <-> Data tx = None).
  { revert HGet. unfold CopyBytes. destruct (Data tx); intros [= <- <-]; easy. }
  apply mem_facts.CopyBytes_inv in HGet as (Hc & _ & _ & _ & Hfresh).
  split; [exact Hc|]. split; [exact Hnil|]. split; [exact Hsub|].
  intros i x h'' Hstore. split; [now apply store_content|].
  apply mem_facts.load_ext; try reflexivity.
  intros g. apply (mem_facts.store_frame _ _ _ _ _ _ Hstore).
  intros w w' Hw Hw' E. apply (Hfresh w Hw). rewrite E.
  exact (Halloc g w' Hw').
Qed.

(** X10. [Copy] changes no array that existed, and it gives the clone four
    separate arrays even where fields of the original share one: a byte
    written through one byte-sequence field of the clone shows in that
    field and in no other field of the clone. *)
Theorem Copy_separates_fields tx h clone h' :
  Copy tx h = (clone, h') ->
  h ⊆ h'
  /\ (forall f i x h'',
        store (field f clone) i x h' = Some h'' ->
        content h'' (field f clone) = <[i := x]> (content h' (field f clone))
        /\ (forall g, g <> f ->
                     content h'' (field g clone) = content h' (field g clone))).
Proof.
  intros HCopy. split.
  - destruct (Copy_steps _ _ _ _ HCopy) as (h1 & h2 & h3 & E1 & E2 & E3 & E4).
    apply CopyBytes_subseteq in E1, E2, E3, E4.
    etransitivity; [exact E1|]. etransitivity; [exact E2|].
    etransitivity; [exact E3|exact E4].
  - intros f i x h'' Hstore. split; [now apply store_content|].
    intros g Hgf. apply (mem_facts.store_frame _ _ _ _ _ _ Hstore).
    intros w w' Hw Hw'.
    apply (Copy_fields_apart _ _ _ _ HCopy f g); [congruence|exact Hw|exact Hw'].
Qed.

(** X11. [SetSignatureValues] puts new arrays in the fields it sets and
    writes into no array that existed: the content of the result is what
    [SetSignatureValues] over content computes, and the transaction as it
    was before the call, still reachable through the old slices, reads the
    same. *)
Theorem SetSignatureValues_allocates tx (chainID v r s : option Z) h tx' h' :
  allocated h tx ->
  mem_ops.SetSignatureValues tx chainID v r s h = (tx', h') ->
  load h' tx' = SetSignatureValues (load h tx) chainID v r s
  /\ h ⊆ h'
  /\ load h' tx = load h tx
  /\ (forall f w, field f tx' = Some w ->
                 field f tx = Some w \/ ptr w ∉ dom h).
Proof.
  intros Halloc HSet.
  destruct (SetSignatureValues_inv _ _ _ _ _ _ _ _ Halloc HSet)
    as (Hsub & _ & Hload & _ & Hold).
  split; [exact Hload|]. split; [exact Hsub|].
  split; [now apply load_weaken|exact Hold].
Qed.

Section constructor_facts.
Variable Hex : common.Address -> string.
Variable NewAccessList : ethtypes.AccessList -> AccessList.

(** X12. [newDynamicFeeTx] over slices builds the transaction that
    [newDynamicFeeTx] over content builds, and it keeps the slice the
    [Data] accessor returned instead of copying it: a byte written through
    that slice afterwards shows in the payload of the transaction, while
    its signature bytes, which are new arrays, do not change. *)
Theorem newDynamicFeeTx_keeps_payload_slice (e : ethtypes.Transaction.t)
    (data : slice) h t h' :
  points_into (dom h) data ->
  content h data = ethtypes.Transaction.Data e ->
  mem_ops.newDynamicFeeTx Hex NewAccessList e data h = (t, h') ->
  load h' t = newDynamicFeeTx Hex NewAccessList e
  /\ Data t = data
  /\ h ⊆ h'
  /\ (forall i x h'',
        store data i x h' = Some h'' ->
        Data (load h'' t) = <[i := x]> (Data (load h' t))
        /\ V (load h'' t) = V (load h' t)
        /\ R (load h'' t) = R (load h' t)
        /\ S (load h'' t) = S (load h' t)).
Proof.
  intros Hdata Hcontent. unfold mem_ops.newDynamicFeeTx, newDynamicFeeTx.
  destruct (ethtypes.Transaction.RawSignatureValues e) as [[v r] s].
  match goal with
  | |- mem_ops.SetSignatureValues ?t0 _ _ _ _ _ = _ -> _ => set (txData := t0)
  end.
  match goal with
  | |- _ -> _ = SetSignatureValues ?t0 _ _ _ _ /\ _ => set (txData0 := t0)
  end.
  assert (Hload0 : load h txData = txData0).
  { subst txData txData0. rewrite <- Hcontent.
    destruct (ethtypes.Transaction.To e), (ethtypes.Transaction.Value e),
      (ethtypes.Transaction.GasFeeCap e), (ethtypes.Transaction.GasTipCap e),
      (ethtypes.Transaction.AccessList e); reflexivity. }
  assert (Hfields : forall f w, field f txData = Some w -> f = FData /\ Some w = data).
  { subst txData. intros f w.
    destruct (ethtypes.Transaction.To e), (ethtypes.Transaction.Value e),
      (ethtypes.Transaction.GasFeeCap e), (ethtypes.Transaction.GasTipCap e),
      (ethtypes.Transaction.AccessList e), f; cbn; intros [=]; subst; auto. }
  assert (Halloc : allocated h txData).
  { intros f w Hw. destruct (Hfields f w Hw) as [_ E]. now apply Hdata. }
  assert (HData0 : Data txData = data).
  { subst txData.
    destruct (ethtypes.Transaction.To e), (ethtypes.Transaction.Value e),
      (ethtypes.Transaction.GasFeeCap e), (ethtypes.Transaction.GasTipCap e),
      (ethtypes.Transaction.AccessList e); reflexivity. }
  clearbody txData txData0. intros HSet.
  destruct (SetSignatureValues_inv _ _ _ _ _ _ _ _ Halloc HSet)
    as (Hsub & _ & Hload & HData & Hold).
  split; [now rewrite Hload, Hload0|].
  split; [now rewrite HData|]. split; [exact Hsub|].
  intros i x h'' Hstore.
  assert (Hsig : forall f, f <> FData ->
                           content h'' (field f t) = content h' (field f t)).
  { intros f Hf. apply (mem_facts.store_frame _ _ _ _ _ _ Hstore).
    intros w w' Hw Hw' E.
    destruct (Hold f w' Hw') as [Hw0|Hfresh].
    - now destruct (Hfields f w' Hw0).
    - apply Hfresh. rewrite <- E. now apply Hdata. }
  split; [|split; [|split]].
  - cbn [load Data]. rewrite HData, HData0. now apply store_content.
  - apply (Hsig FV). discriminate.
  - apply (Hsig FR). discriminate.
  - apply (Hsig FS). discriminate.
Qed.
End constructor_facts.

End mem_more.

(** ** More on the execution context *)
Module statedb_more.
Import statedb.

(** X13. [NewTxConfig] stores its four arguments as they are, so two
    contexts it builds are equal only if built from equal arguments, and
    the context [NewEmptyTxConfig] builds is the one [NewTxConfig] builds
    from the zero hash and two zero indices, and from no other arguments. *)
Theorem NewTxConfig_NewEmptyTxConfig (bhash thash : common.Hash)
    (txIndex logIndex : N) :
  (BlockHash (NewTxConfig bhash thash txIndex logIndex) = bhash
   /\ TxHash (NewTxConfig bhash thash txIndex logIndex) = thash
   /\ TxIndex (NewTxConfig bhash thash txIndex logIndex) = txIndex
   /\ LogIndex (NewTxConfig bhash thash txIndex logIndex) = logIndex)
  /\ (forall bhash',
        NewTxConfig bhash thash txIndex logIndex = NewEmptyTxConfig bhash' <->
        bhash = bhash' /\ thash = common.zero_Hash
        /\ txIndex = 0%N /\ logIndex = 0%N).
Proof.
  split; [repeat split|].
  intros bhash'. unfold NewTxConfig, NewEmptyTxConfig. split.
  - intros [= -> -> -> ->]. repeat split.
  - intros (-> & -> & -> & ->). reflexivity.
Qed.

End statedb_more.

(** ** The further theorems at the sample data *)

Lemma Validate_reads_four_fields_witness :
  Validate hexcodec.ValidateAddress sample.tx
  = Validate hexcodec.ValidateAddress sample_more.unsigned_other.
Proof.
  exact (Validate_reads_four_fields hexcodec.ValidateAddress
           sample.tx sample_more.unsigned_other
           eq_refl eq_refl eq_refl eq_refl).
Defined.

Lemma Validate_Fee_Cost_witness :
  exists f c,
    Fee sample.tx = Some f /\ Cost sample.tx = Some c /\ 0 <= f /\ f <= c.
Proof.
  exact (Validate_Fee_Cost hexcodec.ValidateAddress sample.tx eq_refl).
Defined.

Lemma AsEthereumData_newDynamicFeeTx_witness :
  ethtypes.setDecoded
    (AsEthereumData hexcodec.HexToAddress hexcodec.ToEthAccessList
       (newDynamicFeeTx (hexcodec.Hex sample.keccak)
          (hexcodec.NewAccessList sample.keccak) sample_more.signed))
  = sample_more.signed.
Proof.
  apply (AsEthereumData_newDynamicFeeTx
           (hexcodec.Hex sample.keccak) hexcodec.HexToAddress
           (hexcodec.NewAccessList sample.keccak) hexcodec.ToEthAccessList).
  - apply hexcodec_facts.HexToAddress_Hex.
  - apply hexcodec_facts.Hex_nonempty.
  - intros al. eexists. reflexivity.
  - apply hexcodec_facts.ToEthAccessList_New.
  - cbn. lia.
  - cbn. lia.
  - cbn. lia.
Defined.

Lemma GetData_is_a_copy_witness :
  let got := mem_ops.GetData sample.heap_tx sample.heap in
  mem.allocated sample.heap sample.heap_tx
  /\ mem.content got.2 got.1 = ["001"; "002"; "003"]%byte
  /\ exists h'',
       mem.store got.1 0 "255"%byte got.2 = Some h''
       /\ mem.content h'' got.1 = ["255"; "002"; "003"]%byte
       /\ mem.load h'' sample.heap_tx = mem.load got.2 sample.heap_tx.
Proof.
  intros got.
  assert (Halloc : mem.allocated sample.heap sample.heap_tx).
  { intros [ | | | ] w [= <-]; apply elem_of_dom; vm_compute; eauto. }
  destruct (mem_more.GetData_is_a_copy sample.heap_tx sample.heap got.1 got.2
              Halloc (surjective_pairing got)) as (Hc & _ & _ & Hstore).
  split; [exact Halloc|]. split; [rewrite Hc; reflexivity|].
  destruct (mem.store got.1 0 "255"%byte got.2) as [h''|] eqn:E;
    [|vm_compute in E; discriminate E].
  exists h''. split; [reflexivity|].
  destruct (Hstore 0%nat "255"%byte h'' E) as [Hb Htx].
  split; [rewrite Hb, Hc; reflexivity|exact Htx].
Defined.

Lemma Copy_separates_fields_witness :
  let copied := mem.Copy sample.heap_tx sample.heap in
  mem.ptr <$> V sample.heap_tx = mem.ptr <$> S sample.heap_tx
  /\ exists h'',
       mem.store (V copied.1) 0 "255"%byte copied.2 = Some h''
       /\ mem.content h'' (V copied.1) = ["255"]%byte
       /\ mem.content h'' (S copied.1) = mem.content copied.2 (S copied.1).
Proof.
  intros copied. split; [reflexivity|].
  destruct (mem_more.Copy_separates_fields sample.heap_tx sample.heap
              copied.1 copied.2 (surjective_pairing copied)) as (_ & Hstore).
  destruct (mem.store (V copied.1) 0 "255"%byte copied.2) as [h''|] eqn:E;
    [|vm_compute in E; discriminate E].
  exists h''. split; [reflexivity|].
  destruct (Hstore mem.FV 0%nat "255"%byte h'' E) as [Hb Hothers].
  split; [cbn [mem.field] in Hb; rewrite Hb; reflexivity|].
  apply (Hothers mem.FS). discriminate.
Defined.

Lemma SetSignatureValues_allocates_witness :
  let set := mem_ops.SetSignatureValues sample.heap_tx None (Some 1)
               (Some 4660) None sample.heap in
  mem.allocated sample.heap sample.heap_tx
  /\ mem.load set.2 set.1
     = SetSignatureValues (mem.load sample.heap sample.heap_tx) None (Some 1)
         (Some 4660) None
  /\ mem.load set.2 sample.heap_tx = mem.load sample.heap sample.heap_tx.
Proof.
  intros set.
  assert (Halloc : mem.allocated sample.heap sample.heap_tx).
  { intros [ | | | ] w [= <-]; apply elem_of_dom; vm_compute; eauto. }
  destruct (mem_more.SetSignatureValues_allocates sample.heap_tx
              None (Some 1) (Some 4660) None sample.heap set.1 set.2
              Halloc (surjective_pairing set)) as (Hload & _ & Hold & _).
  exact (conj Halloc (conj Hload Hold)).
Defined.

Lemma newDynamicFeeTx_keeps_payload_slice_witness :
  let Hex := hexcodec.Hex sample.keccak in
  let NewAccessList := hexcodec.NewAccessList sample.keccak in
  let built := mem_ops.newDynamicFeeTx Hex NewAccessList sample.transfer
                 sample_more.data sample_more.heap in
  mem.load built.2 built.1 = newDynamicFeeTx Hex NewAccessList sample.transfer
  /\ exists h'',
       mem.store sample_more.data 0 "255"%byte built.2 = Some h''
       /\ Data (mem.load h'' built.1) = ["255"; "173"; "190"; "239"]%byte
       /\ R (mem.load h'' built.1) = R (mem.load built.2 built.1).
Proof.
  intros Hex NewAccessList built.
  assert (Hdata : mem.points_into (dom sample_more.heap) sample_more.data).
  { intros w [= <-]. apply elem_of_dom. vm_compute. eauto. }
  destruct (mem_more.newDynamicFeeTx_keeps_payload_slice Hex NewAccessList
              sample.transfer sample_more.data sample_more.heap
              built.1 built.2 Hdata eq_refl (surjective_pairing built))
    as (Hload & _ & _ & Hstore).
  split; [exact Hload|].
  destruct (mem.store sample_more.data 0 "255"%byte built.2) as [h''|] eqn:E;
    [|vm_compute in E; discriminate E].
  exists h''. split; [reflexivity|].
  destruct (Hstore 0%nat "255"%byte h'' E) as (HData & _ & HR & _).
  split; [rewrite HData, Hload; reflexivity|exact HR].
Defined.
